(** * sbserver: the Safe Browsing proxy's HTTP handlers (app.go)

    A shallow embedding of the handlers of [app.go] ([unmarshal], [marshal],
    [serveStatus], [serveLookups], [serveLists]) and the properties of the
    gateway layer proved about them.

    What lives outside [app.go] is taken at its interface:
    - the HTTP layer ([net/http]) is an in-memory response recorder;
    - the wire codecs ([jsonpb], [proto], [encoding/json]) are the methods
      of a class, one instance per message type;
    - the classifier ([*safebrowsing.SafeBrowser]) is a pair of operations
      a handler may call; a handler is a tree of such calls;
    - the iteration order of a Go map is an oracle that returns some
      permutation of the keys. *)

From Stdlib Require Import ZArith.
From Stdlib.Strings Require Import Byte String.
From stdpp Require Import base decidable countable gmap strings list.

Open Scope Z_scope.
Open Scope string_scope.

(** ** Results of fallible calls: Go's [(value, error)] pairs *)

Inductive result (A : Type) : Type :=
| Ok (a : A)
| Err (e : string).
Arguments Ok {A} a.
Arguments Err {A} e.

(** Go's [error] value: [None] is [nil], [Some msg] an error whose
    [Error()] is [msg]. *)
Abbreviation error := (option string).

(** ** net/http, as far as the handlers use it *)

Module http.

Definition StatusOK : Z := 200.
Definition StatusBadRequest : Z := 400.
Definition StatusInternalServerError : Z := 500.

(** [url.Values] and [http.Header]: a key maps to a list of values. *)
Abbreviation Values := (gmap string (list string)).

(** [Values.Get] and [Header.Get]: the first value of the key, the empty
    string when there is none. *)
Definition Get (v : Values) (key : string) : string :=
  match v !! key with
  | Some (x :: _) => x
  | _ => ""
  end.

(** [Header.Set]: the key's values are replaced by the one value. *)
Definition Set_ (v : Values) (key value : string) : Values :=
  <[key := [value]]> v.

Record Request := {
  Method : string;
  (** [req.URL.Query()] *)
  Query : Values;
  Header : Values;
  Body : list byte;
}.

(** The response writer is a recorder: the header map, the status code
    once it has been written, and the body bytes written so far. *)
Record ResponseWriter := {
  rw_Header : Values;
  rw_Code : option Z;
  rw_Body : list byte;
}.

Definition NewRecorder : ResponseWriter :=
  {| rw_Header := ∅; rw_Code := None; rw_Body := [] |}.

Definition Header_Set (w : ResponseWriter) (key value : string) : ResponseWriter :=
  {| rw_Header := Set_ (rw_Header w) key value;
     rw_Code := rw_Code w;
     rw_Body := rw_Body w |}.

(** [WriteHeader]: the first call fixes the status code. *)
Definition WriteHeader (w : ResponseWriter) (code : Z) : ResponseWriter :=
  match rw_Code w with
  | Some _ => w
  | None =>
      {| rw_Header := rw_Header w; rw_Code := Some code; rw_Body := rw_Body w |}
  end.

(** [Write]: writes the header with 200 if it was not written, then
    appends the bytes. A recorder's write returns no error. *)
Definition Write (w : ResponseWriter) (b : list byte) : ResponseWriter * error :=
  let w := WriteHeader w StatusOK in
  ({| rw_Header := rw_Header w; rw_Code := rw_Code w; rw_Body := rw_Body w ++ b |},
   None).

(** [http.Error]: a plain-text reply with the given code, the message
    written as one line. *)
Definition Error (w : ResponseWriter) (msg : string) (code : Z) : ResponseWriter :=
  let w := Header_Set w "Content-Type" "text/plain; charset=utf-8" in
  let w := Header_Set w "X-Content-Type-Options" "nosniff" in
  let w := WriteHeader w code in
  fst (Write w (list_byte_of_string (msg ++ String (Ascii.ascii_of_byte x0a) ""))).

(** The status code the client receives: 200 when the handler returned
    without writing one. *)
Definition StatusCode (w : ResponseWriter) : Z :=
  default StatusOK (rw_Code w).

Definition ContentType (w : ResponseWriter) : string :=
  Get (rw_Header w) "Content-Type".

End http.

(** ** The message schema (package [safebrowsing_proto]) *)

Module pb.

(** A Go [int32]: the three enumerations of the schema are of this type,
    and [pb.ThreatType(x)] and its siblings convert to it. *)
Definition int32 (z : Z) : Z := (z + 2 ^ 31) `mod` 2 ^ 32 - 2 ^ 31.

(** Modelled from the spec: the generated message types of package
    [safebrowsing_proto], which [app.go] imports and does not declare.
    Each record has the fields the data model gives the message and
    [app.go] reads or sets; an entry carries a URL string and hash
    bytes. *)
Record ThreatEntry := {
  Hash : list byte;
  Url : string;
}.

Record ThreatInfo := {
  ThreatTypes : list Z;
  PlatformTypes : list Z;
  ThreatEntryTypes : list Z;
  ThreatEntries : list ThreatEntry;
}.

Record FindThreatMatchesRequest := {
  (** [nil] when the request has no [threatInfo] *)
  ThreatInfo_ : option ThreatInfo;
}.

(** [new(pb.FindThreatMatchesRequest)] *)
Definition new_FindThreatMatchesRequest : FindThreatMatchesRequest :=
  {| ThreatInfo_ := None |}.

(** The generated getters are nil-safe. *)
Definition GetThreatInfo (r : FindThreatMatchesRequest) : option ThreatInfo :=
  ThreatInfo_ r.

Definition GetThreatEntries (ti : option ThreatInfo) : list ThreatEntry :=
  match ti with
  | Some ti => ThreatEntries ti
  | None => []
  end.

Record ThreatMatch := {
  tm_ThreatType : Z;
  tm_PlatformType : Z;
  tm_ThreatEntryType : Z;
  tm_Threat : option ThreatEntry;
}.

Record FindThreatMatchesResponse := {
  Matches : list ThreatMatch;
}.

Record ThreatListDescriptor := {
  tl_ThreatType : Z;
  tl_PlatformType : Z;
  tl_ThreatEntryType : Z;
}.

Record ListThreatListsResponse := {
  ThreatLists : list ThreatListDescriptor;
}.

(** The (threatType, platformType, threatEntryType) triple of a match. *)
Definition triple (m : ThreatMatch) : Z * Z * Z :=
  (tm_ThreatType m, tm_PlatformType m, tm_ThreatEntryType m).

(** [proto.Message], with the codecs that serve it: [proto.Marshal],
    [proto.Unmarshal], [jsonpb.Marshaler.Marshal], [jsonpb.Unmarshal]. *)
Class Message (M : Type) := {
  proto_Marshal : M → result (list byte);
  proto_Unmarshal : list byte → result M;
  jsonpb_Marshal : M → result (list byte);
  jsonpb_Unmarshal : list byte → result M;
}.

End pb.

(** ** The classifier library (package [safebrowsing]), at its interface *)

Module safebrowsing.

(** Modelled from the spec: the types of package [safebrowsing] that
    [app.go] uses and does not declare: the threat descriptor, a triple
    of enumerations (unsigned 16-bit values in the library), the threat
    of a URL, the status counters and the configuration. *)
Record uint16 := Uint16 {
  u16 : Z;
  u16_range : bool_decide (0 ≤ u16 < 2 ^ 16);
}.

Definition uint16_of_Z (z : Z) : option uint16 :=
  match decide (Is_true (bool_decide (0 ≤ z < 2 ^ 16))) with
  | left H => Some (Uint16 z H)
  | right _ => None
  end.

Lemma uint16_eq (x y : uint16) : u16 x = u16 y → x = y.
Proof.
  destruct x as [x Hx], y as [y Hy]; simpl; intros ->.
  f_equal; apply proof_irrel.
Qed.

Lemma uint16_of_Z_u16 (x : uint16) : uint16_of_Z (u16 x) = Some x.
Proof.
  unfold uint16_of_Z. destruct x as [x Hx]; simpl.
  destruct (decide _) as [H|H]; [|done].
  f_equal; by apply uint16_eq.
Qed.

#[global] Instance uint16_eq_dec : EqDecision uint16.
Proof.
  refine (λ x y, cast_if (decide (u16 x = u16 y)));
    [by apply uint16_eq | by intros ->].
Defined.

#[global] Instance uint16_countable : Countable uint16 :=
  inj_countable u16 uint16_of_Z uint16_of_Z_u16.

Record ThreatDescriptor := {
  ThreatType : uint16;
  PlatformType : uint16;
  ThreatEntryType : uint16;
}.

#[global] Instance ThreatDescriptor_eq_dec : EqDecision ThreatDescriptor.
Proof. solve_decision. Defined.

Definition ThreatDescriptor_to_tuple (td : ThreatDescriptor) :
    uint16 * uint16 * uint16 :=
  (ThreatType td, PlatformType td, ThreatEntryType td).

Definition ThreatDescriptor_of_tuple (t : uint16 * uint16 * uint16) :
    ThreatDescriptor :=
  {| ThreatType := t.1.1; PlatformType := t.1.2; ThreatEntryType := t.2 |}.

Lemma ThreatDescriptor_of_to_tuple td :
  ThreatDescriptor_of_tuple (ThreatDescriptor_to_tuple td) = td.
Proof. by destruct td. Qed.

#[global] Instance ThreatDescriptor_countable : Countable ThreatDescriptor :=
  inj_countable' ThreatDescriptor_to_tuple ThreatDescriptor_of_tuple
    ThreatDescriptor_of_to_tuple.

(** A [URLThreat] embeds the descriptor next to the matching pattern. *)
Record URLThreat := {
  Pattern : string;
  Descriptor : ThreatDescriptor;
}.

(** The counters of the [/status] reply, as [app.go] documents them. *)
Record Stats := {
  QueriesByDatabase : Z;
  QueriesByCache : Z;
  QueriesByAPI : Z;
  QueriesFail : Z;
}.

(** Of [Config] the handlers read the subscribed lists only. *)
Record Config := {
  ThreatLists : list ThreatDescriptor;
}.

(** The library's constants that [app.go] refers to. *)
Class Library := {
  DefaultThreatLists : list ThreatDescriptor;
}.

(** What a handler does with the [*SafeBrowser] it is given: it returns,
    or it calls [LookupURLs] or [Status] and goes on with the reply. *)
Inductive Calls (A : Type) : Type :=
| Ret (a : A)
| LookupURLs (urls : list string)
    (k : list (list URLThreat) * error → Calls A)
| Status (k : Stats * error → Calls A).
Arguments Ret {A} a.
Arguments LookupURLs {A} urls k.
Arguments Status {A} k.

(** A classifier to run a handler against. *)
Record SafeBrowser := {
  sb_LookupURLs : list string → list (list URLThreat) * error;
  sb_Status : Stats * error;
}.

Inductive Call :=
| CallLookupURLs (urls : list string)
| CallStatus.

(** Running a handler: its result and the classifier calls it made, in
    the order it made them. *)
Fixpoint run {A} (sb : SafeBrowser) (p : Calls A) : A * list Call :=
  match p with
  | Ret a => (a, [])
  | LookupURLs urls k =>
      let '(a, cs) := run sb (k (sb_LookupURLs sb urls)) in
      (a, CallLookupURLs urls :: cs)
  | Status k =>
      let '(a, cs) := run sb (k (sb_Status sb)) in
      (a, CallStatus :: cs)
  end.

End safebrowsing.

(** Go ranges over a map in an order of its choosing. [range_keys i m] is
    the order in which the map [m] built for position [i] is visited:
    some arrangement of its keys. *)
Class MapRange := {
  range_keys : nat → gmap safebrowsing.ThreatDescriptor bool →
               list safebrowsing.ThreatDescriptor;
  range_keys_perm : ∀ i m, range_keys i m ≡ₚ (map_to_list m).*1;
}.

(** [encoding/json] on the anonymous struct of the [/status] reply. *)
Record StatusReply := {
  Stats : safebrowsing.Stats;
  Error : string;
}.

Class JSON := {
  json_Marshal : StatusReply → result (list byte);
}.

(** [ioutil.ReadAll] on a body that is already in memory. *)
Definition ioutil_ReadAll (body : list byte) : result (list byte) := Ok body.

(** ** app.go *)

Definition mimeJSON : string := "application/json".
Definition mimeProto : string := "application/x-protobuf".

(** How a handler ends: it returns, having written to the response, or
    the Go runtime stops it with a panic. *)
Inductive Outcome :=
| Returned (w : http.ResponseWriter)
| Panicked (msg : string).

(** [unmarshal]: the mime of the reply, the request message as decoded
    into [pbReq], and the error. *)
Definition unmarshal {M} `{!pb.Message M} (req : http.Request) (pbReq : M) :
    string * M * error :=
  let mime := "" in
  let alt := http.Get (http.Query req) "alt" in
  let alt :=
    if String.eqb alt "" then http.Get (http.Header req) "Content-Type" else alt in
  let switch :=
    if String.eqb alt "json" || String.eqb alt mimeJSON then Ok mimeJSON
    else if String.eqb alt "proto" || String.eqb alt mimeProto then Ok mimeProto
    else Err "invalid interchange format" in
  match switch with
  | Err e => (mime, pbReq, Some e)
  | Ok mime =>
      let ct := http.Get (http.Header req) "Content-Type" in
      if String.eqb ct mimeJSON then
        match pb.jsonpb_Unmarshal (http.Body req) with
        | Err e => (mime, pbReq, Some e)
        | Ok m => (mime, m, None)
        end
      else if String.eqb ct mimeProto then
        match ioutil_ReadAll (http.Body req) with
        | Err e => (mime, pbReq, Some e)
        | Ok body =>
            match pb.proto_Unmarshal body with
            | Err e => (mime, pbReq, Some e)
            | Ok m => (mime, m, None)
            end
        end
      else (mime, pbReq, None)
  end.

(** [marshal]: the response after the write, and the error. *)
Definition marshal {M} `{!pb.Message M} (resp : http.ResponseWriter) (pbResp : M)
    (mime : string) : http.ResponseWriter * error :=
  let resp := http.Header_Set resp "Content-Type" mime in
  if String.eqb mime mimeProto then
    match pb.proto_Marshal pbResp with
    | Err e => (resp, Some e)
    | Ok body =>
        match http.Write resp body with
        | (resp, Some e) => (resp, Some e)
        | (resp, None) => (resp, None)
        end
    end
  else if String.eqb mime mimeJSON then
    match pb.jsonpb_Marshal pbResp with
    | Err e => (resp, Some e)
    | Ok b =>
        match http.Write resp b with
        | (resp, Some e) => (resp, Some e)
        | (resp, None) => (resp, None)
        end
    end
  else (resp, Some "invalid interchange format").

(** [serveStatus] *)
Definition serveStatus `{!JSON} (resp : http.ResponseWriter) (req : http.Request) :
    safebrowsing.Calls Outcome :=
  safebrowsing.Status (λ '(stats, sbErr),
    let errStr := match sbErr with Some e => e | None => "" end in
    match json_Marshal {| Stats := stats; Error := errStr |} with
    | Err e =>
        safebrowsing.Ret
          (Returned (http.Error resp e http.StatusInternalServerError))
    | Ok buf =>
        let resp := http.Header_Set resp "Content-Type" mimeJSON in
        safebrowsing.Ret (Returned (fst (http.Write resp buf)))
    end).

(** The conversions [pb.ThreatType(td.ThreatType)] and its two siblings:
    a [uint16] taken to the [int32] of the enumeration. *)
Definition pb_enum (x : safebrowsing.uint16) : Z := pb.int32 (safebrowsing.u16 x).

(** The request loop of [serveLookups]: every entry's URL is appended,
    and the first entry that has no URL or has a hash stops the handler
    ([None]). *)
Fixpoint parse_entries (tes : list pb.ThreatEntry) (urls : list string) :
    option (list string) :=
  match tes with
  | [] => Some urls
  | u :: tes =>
      let urls := (urls ++ [pb.Url u])%list in
      if String.eqb (pb.Url u) "" || (0 <? length (pb.Hash u))%nat then None
      else parse_entries tes urls
  end.

(** [tdm[ut.ThreatDescriptor] = true] for every [ut] of [uts]. *)
Definition condense (uts : list safebrowsing.URLThreat) :
    gmap safebrowsing.ThreatDescriptor bool :=
  foldl (λ tdm ut, <[safebrowsing.Descriptor ut := true]> tdm) ∅ uts.

Definition index_out_of_range : string := "runtime error: index out of range".

(** The literal [&pb.ThreatMatch{...}] of the response loop, for the URL
    read at [urls[i]] and the descriptor [td]. *)
Definition new_ThreatMatch (url : string) (td : safebrowsing.ThreatDescriptor) :
    pb.ThreatMatch :=
  {| pb.tm_Threat := Some {| pb.Hash := []; pb.Url := url |};
     pb.tm_ThreatType := pb_enum (safebrowsing.ThreatType td);
     pb.tm_PlatformType := pb_enum (safebrowsing.PlatformType td);
     pb.tm_ThreatEntryType := pb_enum (safebrowsing.ThreatEntryType td) |}.

(** The inner loop [for td := range tdm], the keys taken in the order
    [tds]: [urls[i]] is read at every key, and panics out of range. *)
Fixpoint emit (urls : list string) (i : nat)
    (tds : list safebrowsing.ThreatDescriptor) (matches : list pb.ThreatMatch) :
    result (list pb.ThreatMatch) :=
  match tds with
  | [] => Ok matches
  | td :: tds =>
      match urls !! i with
      | None => Err index_out_of_range
      | Some url =>
          let tm := new_ThreatMatch url td in
          emit urls i tds (matches ++ [tm])%list
      end
  end.

(** The outer loop [for i, uts := range utss], from position [i] on. *)
Fixpoint compose_from `{!MapRange} (urls : list string) (i : nat)
    (utss : list (list safebrowsing.URLThreat)) (matches : list pb.ThreatMatch) :
    result (list pb.ThreatMatch) :=
  match utss with
  | [] => Ok matches
  | uts :: utss =>
      let tdm := condense uts in
      match emit urls i (range_keys i tdm) matches with
      | Err e => Err e
      | Ok matches => compose_from urls (S i) utss matches
      end
  end.

(** "Compose the response message." *)
Definition compose `{!MapRange} (urls : list string)
    (utss : list (list safebrowsing.URLThreat)) : result pb.FindThreatMatchesResponse :=
  match compose_from urls 0 utss [] with
  | Err e => Err e
  | Ok matches => Ok {| pb.Matches := matches |}
  end.

(** [serveLookups] *)
Definition serveLookups `{!MapRange}
    `{!pb.Message pb.FindThreatMatchesRequest}
    `{!pb.Message pb.FindThreatMatchesResponse}
    (resp : http.ResponseWriter) (req : http.Request) :
    safebrowsing.Calls Outcome :=
  if negb (String.eqb (http.Method req) "POST") then
    safebrowsing.Ret (Returned (http.Error resp "invalid method" http.StatusBadRequest))
  else
    match unmarshal req pb.new_FindThreatMatchesRequest with
    | (mime, pbReq, Some err) =>
        safebrowsing.Ret (Returned (http.Error resp err http.StatusBadRequest))
    | (mime, pbReq, None) =>
        let tes := pb.GetThreatEntries (pb.GetThreatInfo pbReq) in
        match parse_entries tes [] with
        | None =>
            safebrowsing.Ret
              (Returned (http.Error resp "only ThreatEntry.Url may be set"
                           http.StatusBadRequest))
        | Some urls =>
            safebrowsing.LookupURLs urls (λ '(utss, err),
              match err with
              | Some err =>
                  safebrowsing.Ret
                    (Returned (http.Error resp err http.StatusInternalServerError))
              | None =>
                  match compose urls utss with
                  | Err p => safebrowsing.Ret (Panicked p)
                  | Ok pbResp =>
                      match marshal resp pbResp mime with
                      | (resp, Some err) =>
                          safebrowsing.Ret
                            (Returned (http.Error resp err
                                         http.StatusInternalServerError))
                      | (resp, None) => safebrowsing.Ret (Returned resp)
                      end
                  end
              end)
        end
    end.

(** The literal [&pb.ThreatListDescriptor{...}] of the list loop. *)
Definition new_ThreatListDescriptor (td : safebrowsing.ThreatDescriptor) :
    pb.ThreatListDescriptor :=
  {| pb.tl_ThreatType := pb_enum (safebrowsing.ThreatType td);
     pb.tl_PlatformType := pb_enum (safebrowsing.PlatformType td);
     pb.tl_ThreatEntryType := pb_enum (safebrowsing.ThreatEntryType td) |}.

(** The list loop of [serveLists]. *)
Definition list_descriptors (tls : list safebrowsing.ThreatDescriptor) :
    list pb.ThreatListDescriptor :=
  foldl (λ acc td, (acc ++ [new_ThreatListDescriptor td])%list) [] tls.

(** The lists [serveLists] reports: the configured ones, the library's
    default when none is configured. *)
Definition subscribed `{!safebrowsing.Library} (conf : safebrowsing.Config) :
    list safebrowsing.ThreatDescriptor :=
  let tls := safebrowsing.DefaultThreatLists in
  if negb (length (safebrowsing.ThreatLists conf) =? 0)%nat
  then safebrowsing.ThreatLists conf
  else tls.

(** [serveLists]: it is handed the configuration and no classifier. *)
Definition serveLists `{!safebrowsing.Library}
    `{!pb.Message pb.ListThreatListsResponse}
    (resp : http.ResponseWriter) (req : http.Request) (conf : safebrowsing.Config) :
    http.ResponseWriter :=
  let alt := http.Get (http.Query req) "alt" in
  let switch :=
    if String.eqb alt "" || String.eqb alt "json" then Ok mimeJSON
    else if String.eqb alt "proto" then Ok mimeProto
    else Err "invalid request type" in
  match switch with
  | Err e => http.Error resp e http.StatusBadRequest
  | Ok mime =>
      if negb (String.eqb (http.Method req) "GET") then
        http.Error resp "invalid method" http.StatusBadRequest
      else
        let tls := subscribed conf in
        let pbResp := {| pb.ThreatLists := list_descriptors tls |} in
        match marshal resp pbResp mime with
        | (resp, Some err) => http.Error resp err http.StatusInternalServerError
        | (resp, None) => resp
        end
  end.

(** ** main: the routing table *)

Definition statusPath : string := "/status".
Definition findThreatPath : string := "/v4/threatMatches:find".
Definition getThreatListsPath : string := "/v4/threatLists".
Definition gaeHealthCheckPath : string := "/_ah/health".

Definition Handler : Type :=
  http.ResponseWriter → http.Request → safebrowsing.Calls Outcome.

(** The closures [main] registers with [http.HandleFunc], each under its
    path. The classifier is the one the handler's calls are run against;
    the configuration is captured by the list handler alone. The static
    files under [/public/] are not part of the table. *)
Definition handlers `{!MapRange} `{!JSON} `{!safebrowsing.Library}
    `{!pb.Message pb.FindThreatMatchesRequest}
    `{!pb.Message pb.FindThreatMatchesResponse}
    `{!pb.Message pb.ListThreatListsResponse}
    (conf : safebrowsing.Config) : list (string * Handler) :=
  [ (gaeHealthCheckPath,
      λ w r, safebrowsing.Ret
               (Returned (fst (http.Write w (list_byte_of_string "ok")))));
    (statusPath, λ w r, serveStatus w r);
    (findThreatPath, λ w r, serveLookups w r);
    (getThreatListsPath,
      λ w r, safebrowsing.Ret (Returned (serveLists w r conf))) ].

(** The handler registered under exactly this path, if any. *)
Fixpoint handler_at (table : list (string * Handler)) (path : string) :
    option Handler :=
  match table with
  | [] => None
  | (p, h) :: table => if String.eqb p path then Some h else handler_at table path
  end.

(** ** parseTemplates *)

(** [html/template], at its interface: a template and its method [Parse],
    which returns the template with the text parsed into it, or an error. *)
Class Templates := {
  Template : Type;
  Template_Parse : Template → string → result Template;
}.

(** An [http.File], as far as [ioutil.ReadAll] sees it: the bytes it
    reads to, or the error of the read. *)
Definition File : Type := result (list byte).

(** An [http.FileSystem]: [Open] gives the file at a path, or an error. *)
Definition FileSystem : Type := string → result File.

(** [parseTemplates]: the files at [paths] are opened, read and parsed
    into [t] one after the other; the first error ends the loop and is
    returned with no template. *)
Fixpoint parseTemplates `{!Templates} (fs : FileSystem) (t : Template)
    (paths : list string) : result Template :=
  match paths with
  | [] => Ok t
  | path :: paths =>
      match fs path with
      | Err err => Err err
      | Ok file =>
          match file with
          | Err err => Err err
          | Ok tmpl =>
              match Template_Parse t (string_of_list_byte tmpl) with
              | Err err => Err err
              | Ok t => parseTemplates fs t paths
              end
          end
      end
  end.

(** ** main: the configuration *)

(** The literal [safebrowsing.Config{APIKey: ..., DBPath: ..., Logger: ...}]
    of [main]: it names no threat lists, and that field is the one the
    handlers read. [main] hands the value to [NewSafeBrowser] and its
    address to the list handler. *)
Definition main_conf : safebrowsing.Config :=
  {| safebrowsing.ThreatLists := [] |}.

(** ** What the properties speak about *)

(** The value [unmarshal] switches on: the [alt] query parameter, the
    [Content-Type] header when [alt] is empty or absent. *)
Definition selector (req : http.Request) : string :=
  let alt := http.Get (http.Query req) "alt" in
  if String.eqb alt "" then http.Get (http.Header req) "Content-Type" else alt.

(** The triple of a classifier descriptor, as the response carries it. *)
Definition descriptor_triple (td : safebrowsing.ThreatDescriptor) : Z * Z * Z :=
  (pb_enum (safebrowsing.ThreatType td),
   pb_enum (safebrowsing.PlatformType td),
   pb_enum (safebrowsing.ThreatEntryType td)).

(** The matches the response loop appends at position [i]. *)
Definition group_at `{!MapRange} (urls : list string) (i : nat)
    (uts : list safebrowsing.URLThreat) : list pb.ThreatMatch :=
  match urls !! i with
  | Some url => new_ThreatMatch url <$> range_keys i (condense uts)
  | None => []
  end.

(** The queried URL a match echoes. *)
Definition threat_url (m : pb.ThreatMatch) : option string :=
  pb.Url <$> pb.tm_Threat m.

(** An entry the request loop refuses. *)
Definition invalid_entry (u : pb.ThreatEntry) : Prop :=
  pb.Url u = "" ∨ pb.Hash u ≠ [].

(** The mime [serveLists] picks for an [alt] it accepts. *)
Definition list_mime (alt : string) : string :=
  if String.eqb alt "proto" then mimeProto else mimeJSON.

(** The selectors [unmarshal] accepts. *)
Definition accepted (sel : string) : Prop :=
  sel ∈ ["json"; mimeJSON; "proto"; mimeProto].


(** One step of [parseTemplates]: the file at [path] opened, read and
    parsed into [t]. *)
Definition parse_file `{!Templates} (fs : FileSystem) (t : Template)
    (path : string) : result Template :=
  match fs path with
  | Err err => Err err
  | Ok (Err err) => Err err
  | Ok (Ok tmpl) => Template_Parse t (string_of_list_byte tmpl)
  end.

(** A response writer nothing has been written to. *)
Definition fresh (w : http.ResponseWriter) : Prop := http.rw_Code w = None.

(** The tail of [serveLookups] and [serveLists]: the reply as [marshal]
    wrote it, a 500 with the error's text when [marshal] failed. *)
Definition encoded (r : http.ResponseWriter * error) : http.ResponseWriter :=
  match r with
  | (resp, Some err) => http.Error resp err http.StatusInternalServerError
  | (resp, None) => resp
  end.

(** ** Stand-ins to run the handlers on concrete requests

    A test double for each interface the handlers are generic in: a
    line-oriented codec, a map iteration that follows the table, the
    default lists as [app.go] documents them, a classifier with one bad
    URL. *)

Module Demo.

(** Map iteration in the order of the map's own table. *)
Definition table_order : MapRange :=
  {| range_keys := λ _ m, (map_to_list m).*1;
     range_keys_perm := λ _ m, reflexivity ((map_to_list m).*1) |}.

(** The body cut at every newline byte. *)
Fixpoint split_lines (bs cur : list byte) : list (list byte) :=
  match bs with
  | [] => [cur]
  | b :: bs =>
      if Byte.eqb b x0a then cur :: split_lines bs []
      else split_lines bs (cur ++ [b])%list
  end.

(** One entry per line: a line that starts with [#] carries hash bytes,
    any other line is the URL. *)
Definition entry_of_line (l : list byte) : pb.ThreatEntry :=
  match l with
  | b :: h => if Byte.eqb b x23 then {| pb.Hash := h; pb.Url := "" |}
              else {| pb.Hash := []; pb.Url := string_of_list_byte l |}
  | [] => {| pb.Hash := []; pb.Url := "" |}
  end.

Definition decode_request (body : list byte) : result pb.FindThreatMatchesRequest :=
  match body with
  | [] => Ok pb.new_FindThreatMatchesRequest
  | _ =>
      Ok {| pb.ThreatInfo_ :=
              Some {| pb.ThreatTypes := []; pb.PlatformTypes := [];
                      pb.ThreatEntryTypes := [];
                      pb.ThreatEntries := entry_of_line <$> split_lines body [] |} |}
  end.

Definition encode_request (r : pb.FindThreatMatchesRequest) : result (list byte) :=
  Ok (flat_map (λ e, list_byte_of_string (pb.Url e) ++ [x0a])%list
        (pb.GetThreatEntries (pb.GetThreatInfo r))).

Definition request_codec : pb.Message pb.FindThreatMatchesRequest :=
  {| pb.proto_Marshal := encode_request;
     pb.proto_Unmarshal := decode_request;
     pb.jsonpb_Marshal := encode_request;
     pb.jsonpb_Unmarshal := decode_request |}.

Definition byte_of_enum (z : Z) : byte :=
  default x00 (Byte.of_N (Z.to_N (z `mod` 256))).

Definition encode_matches (r : pb.FindThreatMatchesResponse) : result (list byte) :=
  Ok (flat_map (λ m, list_byte_of_string (default "" (threat_url m))
                      ++ [x20; byte_of_enum (pb.tm_ThreatType m); x0a])%list
        (pb.Matches r)).

Definition matches_codec : pb.Message pb.FindThreatMatchesResponse :=
  {| pb.proto_Marshal := encode_matches;
     pb.proto_Unmarshal := λ _, Err "the gateway decodes no response";
     pb.jsonpb_Marshal := encode_matches;
     pb.jsonpb_Unmarshal := λ _, Err "the gateway decodes no response" |}.

Definition encode_lists (r : pb.ListThreatListsResponse) : result (list byte) :=
  Ok (flat_map (λ d, [byte_of_enum (pb.tl_ThreatType d);
                      byte_of_enum (pb.tl_PlatformType d);
                      byte_of_enum (pb.tl_ThreatEntryType d)])
        (pb.ThreatLists r)).

Definition lists_codec : pb.Message pb.ListThreatListsResponse :=
  {| pb.proto_Marshal := encode_lists;
     pb.proto_Unmarshal := λ _, Err "the gateway decodes no response";
     pb.jsonpb_Marshal := encode_lists;
     pb.jsonpb_Unmarshal := λ _, Err "the gateway decodes no response" |}.

Definition status_codec : JSON :=
  {| json_Marshal := λ r, Ok (list_byte_of_string (Error r)) |}.

Definition MALWARE : safebrowsing.uint16 := safebrowsing.Uint16 1 I.
Definition SOCIAL_ENGINEERING : safebrowsing.uint16 := safebrowsing.Uint16 2 I.
Definition UNWANTED_SOFTWARE : safebrowsing.uint16 := safebrowsing.Uint16 3 I.
Definition ANY_PLATFORM : safebrowsing.uint16 := safebrowsing.Uint16 6 I.
Definition URL : safebrowsing.uint16 := safebrowsing.Uint16 1 I.

Definition descriptor (tt : safebrowsing.uint16) : safebrowsing.ThreatDescriptor :=
  {| safebrowsing.ThreatType := tt;
     safebrowsing.PlatformType := ANY_PLATFORM;
     safebrowsing.ThreatEntryType := URL |}.

(** The default lists of the [/v4/threatLists] example in [app.go]. *)
Definition library : safebrowsing.Library :=
  {| safebrowsing.DefaultThreatLists :=
       [descriptor MALWARE; descriptor SOCIAL_ENGINEERING;
        descriptor UNWANTED_SOFTWARE] |}.

Definition threat (tt : safebrowsing.uint16) : safebrowsing.URLThreat :=
  {| safebrowsing.Pattern := "bad.org/";
     safebrowsing.Descriptor := descriptor tt |}.

(** A classifier that knows one bad URL and reports its malware match
    twice. *)
Definition classifier : safebrowsing.SafeBrowser :=
  {| safebrowsing.sb_LookupURLs := λ urls,
       ((λ u, if String.eqb u "bad.org" then [threat MALWARE; threat MALWARE]
              else []) <$> urls, None);
     safebrowsing.sb_Status :=
       ({| safebrowsing.QueriesByDatabase := 132;
           safebrowsing.QueriesByCache := 31;
           safebrowsing.QueriesByAPI := 6;
           safebrowsing.QueriesFail := 0 |}, Some "update failed") |}.

(** A request with the given method, at most one [alt] parameter and
    one Content-Type header, and the given lines as its body. *)
Definition request (method : string) (alt ct : option string)
    (lines : list string) : http.Request :=
  {| http.Method := method;
     http.Query := list_to_map (option_list ((λ v, ("alt", [v])) <$> alt));
     http.Header :=
       list_to_map (option_list ((λ v, ("Content-Type", [v])) <$> ct));
     http.Body :=
       list_byte_of_string
         (String.concat (String (Ascii.ascii_of_byte x0a) "") lines) |}.

(** The request message with the given entries and no filter. *)
Definition lookup_of (tes : list pb.ThreatEntry) : pb.FindThreatMatchesRequest :=
  {| pb.ThreatInfo_ :=
       Some {| pb.ThreatTypes := []; pb.PlatformTypes := [];
               pb.ThreatEntryTypes := []; pb.ThreatEntries := tes |} |}.

Definition url_entry (url : string) : pb.ThreatEntry :=
  {| pb.Hash := []; pb.Url := url |}.


(** A decoder that refuses a body that starts with [!]. *)
Definition decode_strict (body : list byte) : result pb.FindThreatMatchesRequest :=
  match body with
  | b :: _ =>
      if Byte.eqb b x21 then Err "unexpected token" else decode_request body
  | [] => decode_request body
  end.

Definition strict_request_codec : pb.Message pb.FindThreatMatchesRequest :=
  {| pb.proto_Marshal := encode_request;
     pb.proto_Unmarshal := decode_strict;
     pb.jsonpb_Marshal := encode_request;
     pb.jsonpb_Unmarshal := decode_strict |}.

(** An encoder of responses that always fails. *)
Definition failing_matches_codec : pb.Message pb.FindThreatMatchesResponse :=
  {| pb.proto_Marshal := λ _, Err "message too large";
     pb.proto_Unmarshal := λ _, Err "the gateway decodes no response";
     pb.jsonpb_Marshal := λ _, Err "message too large";
     pb.jsonpb_Unmarshal := λ _, Err "the gateway decodes no response" |}.

(** A classifier whose lookups fail. *)
Definition failing_classifier : safebrowsing.SafeBrowser :=
  {| safebrowsing.sb_LookupURLs := λ _, ([], Some "database not ready");
     safebrowsing.sb_Status := safebrowsing.sb_Status classifier |}.

(** Templates as the list of the texts parsed so far; a text that is an
    unclosed action does not parse. *)
Definition templates : Templates :=
  {| Template := list string;
     Template_Parse := λ t text,
       if String.eqb text "{{" then Err "unclosed action"
       else Ok (t ++ [text])%list |}.

(** Three files: one that parses, one that does not, one that cannot be
    read. *)
Definition files : FileSystem := λ path,
  if String.eqb path "index.html" then Ok (Ok (list_byte_of_string "<html>"))
  else if String.eqb path "broken.html" then Ok (Ok (list_byte_of_string "{{"))
  else if String.eqb path "locked.html" then Ok (Err "permission denied")
  else Err "file does not exist".

(** A decoder that reads a leading [*] as a filter on malware. *)
Definition decode_filtered (body : list byte) : result pb.FindThreatMatchesRequest :=
  match body with
  | b :: rest =>
      if Byte.eqb b x2a then
        Ok {| pb.ThreatInfo_ :=
                Some {| pb.ThreatTypes := [1]; pb.PlatformTypes := [];
                        pb.ThreatEntryTypes := [];
                        pb.ThreatEntries := entry_of_line <$> split_lines rest [] |} |}
      else decode_request body
  | [] => decode_request body
  end.

Definition filtered_request_codec : pb.Message pb.FindThreatMatchesRequest :=
  {| pb.proto_Marshal := encode_request;
     pb.proto_Unmarshal := decode_filtered;
     pb.jsonpb_Marshal := encode_request;
     pb.jsonpb_Unmarshal := decode_filtered |}.

(** The texts parsed so far, as a template. *)
Definition parsed (texts : list string) : @Template templates := texts.

End Demo.

(** * Properties *)

(** ** The response recorder *)

Lemma Error_StatusCode w msg code :
  fresh w → http.StatusCode (http.Error w msg code) = code.
Proof.
  unfold fresh, http.StatusCode, http.Error, http.Write, http.WriteHeader.
  simpl. by intros ->.
Qed.

Lemma WriteHeader_Header w code :
  http.rw_Header (http.WriteHeader w code) = http.rw_Header w.
Proof. unfold http.WriteHeader. by destruct (http.rw_Code w). Qed.

Lemma Write_Header w b : http.rw_Header (http.Write w b).1 = http.rw_Header w.
Proof. unfold http.Write; simpl. apply WriteHeader_Header. Qed.

Lemma Write_Body w b : http.rw_Body (http.Write w b).1 = (http.rw_Body w ++ b)%list.
Proof.
  unfold http.Write, http.WriteHeader; simpl. by destruct (http.rw_Code w).
Qed.

Lemma Write_no_error w b : http.Write w b = ((http.Write w b).1, None).
Proof. reflexivity. Qed.

Lemma Error_ContentType w msg code :
  http.ContentType (http.Error w msg code) = "text/plain; charset=utf-8".
Proof.
  unfold http.ContentType, http.Error.
  rewrite Write_Header, WriteHeader_Header.
  unfold http.Header_Set, http.Get, http.Set_; simpl.
  rewrite lookup_insert_ne by done. by rewrite lookup_insert_eq.
Qed.

Lemma Write_StatusCode w b :
  fresh w → http.StatusCode (http.Write w b).1 = http.StatusOK.
Proof.
  unfold fresh, http.StatusCode, http.Write, http.WriteHeader.
  simpl. by intros ->.
Qed.

Lemma Header_Set_fresh w k v : fresh w → fresh (http.Header_Set w k v).
Proof. done. Qed.

Lemma Header_Set_ContentType w v :
  http.ContentType (http.Header_Set w "Content-Type" v) = v.
Proof.
  unfold http.ContentType, http.Header_Set, http.Get, http.Set_; simpl.
  by rewrite lookup_insert_eq.
Qed.

(** ** String switches *)

Lemma eqb_true (a b : string) : String.eqb a b = true ↔ a = b.
Proof. apply String.eqb_eq. Qed.

Lemma eqb_false (a b : string) : String.eqb a b = false ↔ a ≠ b.
Proof. apply String.eqb_neq. Qed.

Ltac switch_on a b :=
  let E := fresh "E" in
  destruct (String.eqb a b) eqn:E;
  [apply eqb_true in E | apply eqb_false in E].

(** ** The request loop *)



Lemma parse_entries_valid tes acc :
  Forall (λ u, ¬ invalid_entry u) tes →
  parse_entries tes acc = Some (acc ++ (pb.Url <$> tes))%list.
Proof.
  revert acc. induction tes as [|u tes IH]; intros acc Hall; simpl.
  - by rewrite app_nil_r.
  - inversion_clear Hall as [|? ? Hu Htes].
    switch_on (pb.Url u) ""; [destruct Hu; by left|]. simpl.
    destruct (pb.Hash u) as [|b h] eqn:Hh; simpl.
    + rewrite (IH _ Htes). by rewrite <-app_assoc.
    + destruct Hu. right. by rewrite Hh.
Qed.

Section Gateway.

Context `{!MapRange} `{!JSON} `{!safebrowsing.Library}.
Context `{!pb.Message pb.FindThreatMatchesRequest}.
Context `{!pb.Message pb.FindThreatMatchesResponse}.
Context `{!pb.Message pb.ListThreatListsResponse}.

(** ** Negotiation *)

Lemma unmarshal_unfold {M} `{!pb.Message M} (req : http.Request) (pbReq : M) :
  unmarshal req pbReq =
    let alt := selector req in
    if String.eqb alt "json" || String.eqb alt mimeJSON then
      let ct := http.Get (http.Header req) "Content-Type" in
      if String.eqb ct mimeJSON then
        match pb.jsonpb_Unmarshal (http.Body req) with
        | Err e => (mimeJSON, pbReq, Some e)
        | Ok m => (mimeJSON, m, None)
        end
      else if String.eqb ct mimeProto then
        match pb.proto_Unmarshal (http.Body req) with
        | Err e => (mimeJSON, pbReq, Some e)
        | Ok m => (mimeJSON, m, None)
        end
      else (mimeJSON, pbReq, None)
    else if String.eqb alt "proto" || String.eqb alt mimeProto then
      let ct := http.Get (http.Header req) "Content-Type" in
      if String.eqb ct mimeJSON then
        match pb.jsonpb_Unmarshal (http.Body req) with
        | Err e => (mimeProto, pbReq, Some e)
        | Ok m => (mimeProto, m, None)
        end
      else if String.eqb ct mimeProto then
        match pb.proto_Unmarshal (http.Body req) with
        | Err e => (mimeProto, pbReq, Some e)
        | Ok m => (mimeProto, m, None)
        end
      else (mimeProto, pbReq, None)
    else ("", pbReq, Some "invalid interchange format").
Proof.
  unfold unmarshal, selector, ioutil_ReadAll; simpl.
  repeat (destruct (_ || _)); reflexivity.
Qed.

Lemma unmarshal_json {M} `{!pb.Message M} (req : http.Request) (pbReq : M) :
  selector req = "json" ∨ selector req = mimeJSON →
  (unmarshal req pbReq).1.1 = mimeJSON.
Proof.
  intros Hsel. rewrite unmarshal_unfold; simpl.
  assert (String.eqb (selector req) "json" || String.eqb (selector req) mimeJSON = true)
    as -> by (destruct Hsel as [-> | ->]; reflexivity).
  repeat case_match; reflexivity.
Qed.

Lemma unmarshal_proto {M} `{!pb.Message M} (req : http.Request) (pbReq : M) :
  selector req = "proto" ∨ selector req = mimeProto →
  (unmarshal req pbReq).1.1 = mimeProto.
Proof.
  intros Hsel. rewrite unmarshal_unfold; simpl.
  assert (String.eqb (selector req) "json" || String.eqb (selector req) mimeJSON = false)
    as -> by (destruct Hsel as [-> | ->]; reflexivity).
  assert (String.eqb (selector req) "proto" || String.eqb (selector req) mimeProto = true)
    as -> by (destruct Hsel as [-> | ->]; reflexivity).
  repeat case_match; reflexivity.
Qed.

Lemma unmarshal_other {M} `{!pb.Message M} (req : http.Request) (pbReq : M) :
  selector req ∉ ["json"; mimeJSON; "proto"; mimeProto] →
  unmarshal req pbReq = ("", pbReq, Some "invalid interchange format").
Proof.
  intros Hsel. rewrite unmarshal_unfold; simpl.
  rewrite !not_elem_of_cons in Hsel. destruct Hsel as (Ha & Hb & Hc & Hd & _).
  apply eqb_false in Ha, Hb, Hc, Hd. by rewrite Ha, Hb, Hc, Hd.
Qed.

Lemma unmarshal_ok_mime {M} `{!pb.Message M} (req : http.Request) (pbReq m : M) mime :
  unmarshal req pbReq = (mime, m, None) → mime = mimeJSON ∨ mime = mimeProto.
Proof.
  rewrite unmarshal_unfold; simpl.
  repeat case_match; intros [= <- <-]; auto.
Qed.

(** ** Encoding the reply *)

Lemma marshal_ok {M} `{!pb.Message M} resp (pbResp : M) mime w :
  marshal resp pbResp mime = (w, None) →
  http.ContentType w = mime ∧
  ∃ body,
    http.rw_Body w = (http.rw_Body resp ++ body)%list ∧
    (mime = mimeProto ∧ pb.proto_Marshal pbResp = Ok body ∨
     mime = mimeJSON ∧ pb.jsonpb_Marshal pbResp = Ok body).
Proof.
  unfold marshal.
  switch_on mime mimeProto; [|switch_on mime mimeJSON; [|done]].
  - destruct (pb.proto_Marshal pbResp) as [body|e] eqn:Hb; [|done].
    rewrite Write_no_error. intros Hw.
    assert (w = (http.Write (http.Header_Set resp "Content-Type" mime) body).1)
      as -> by congruence. clear Hw. split.
    + unfold http.ContentType.
      rewrite (Write_Header (http.Header_Set resp "Content-Type" mime) body).
      apply Header_Set_ContentType.
    + exists body. split; [|by left].
      apply (Write_Body (http.Header_Set resp "Content-Type" mime) body).
  - destruct (pb.jsonpb_Marshal pbResp) as [body|e] eqn:Hb; [|done].
    rewrite Write_no_error. intros Hw.
    assert (w = (http.Write (http.Header_Set resp "Content-Type" mime) body).1)
      as -> by congruence. clear Hw. split.
    + unfold http.ContentType.
      rewrite (Write_Header (http.Header_Set resp "Content-Type" mime) body).
      apply Header_Set_ContentType.
    + exists body. split; [|by right].
      apply (Write_Body (http.Header_Set resp "Content-Type" mime) body).
Qed.

Lemma marshal_ok_StatusCode {M} `{!pb.Message M} resp (pbResp : M) mime w :
  fresh resp → marshal resp pbResp mime = (w, None) →
  http.StatusCode w = http.StatusOK.
Proof.
  intros Hfresh. unfold marshal.
  switch_on mime mimeProto; [|switch_on mime mimeJSON; [|done]].
  - destruct (pb.proto_Marshal pbResp) as [body|e]; [|done].
    rewrite Write_no_error. intros Hw.
    assert (w = (http.Write (http.Header_Set resp "Content-Type" mime) body).1)
      as -> by congruence. clear Hw.
    by apply (Write_StatusCode (http.Header_Set resp "Content-Type" mime) body).
  - destruct (pb.jsonpb_Marshal pbResp) as [body|e]; [|done].
    rewrite Write_no_error. intros Hw.
    assert (w = (http.Write (http.Header_Set resp "Content-Type" mime) body).1)
      as -> by congruence. clear Hw.
    by apply (Write_StatusCode (http.Header_Set resp "Content-Type" mime) body).
Qed.

Lemma marshal_fresh {M} `{!pb.Message M} resp (pbResp : M) mime w err :
  fresh resp → marshal resp pbResp mime = (w, Some err) → fresh w.
Proof.
  intros Hfresh. unfold marshal.
  switch_on mime mimeProto; [|switch_on mime mimeJSON].
  - destruct (pb.proto_Marshal pbResp); [done|]. by intros [= <- _].
  - destruct (pb.jsonpb_Marshal pbResp); [done|]. by intros [= <- _].
  - by intros [= <- _].
Qed.

(** ** The lookup handler, step by step *)

Lemma serveLookups_not_POST resp req :
  http.Method req ≠ "POST" →
  serveLookups resp req =
    safebrowsing.Ret
      (Returned (http.Error resp "invalid method" http.StatusBadRequest)).
Proof.
  intros Hm%eqb_false. unfold serveLookups. by rewrite Hm.
Qed.

Lemma serveLookups_undecoded resp req mime pbReq err :
  http.Method req = "POST" →
  unmarshal req pb.new_FindThreatMatchesRequest = (mime, pbReq, Some err) →
  serveLookups resp req =
    safebrowsing.Ret (Returned (http.Error resp err http.StatusBadRequest)).
Proof.
  intros Hm%eqb_true Hu. unfold serveLookups. by rewrite Hm, Hu.
Qed.


Lemma serveLookups_looked_up resp req mime pbReq urls :
  http.Method req = "POST" →
  unmarshal req pb.new_FindThreatMatchesRequest = (mime, pbReq, None) →
  parse_entries (pb.GetThreatEntries (pb.GetThreatInfo pbReq)) [] = Some urls →
  ∃ k,
    serveLookups resp req = safebrowsing.LookupURLs urls k ∧
    (∀ utss err,
       k (utss, Some err) =
         safebrowsing.Ret
           (Returned (http.Error resp err http.StatusInternalServerError))) ∧
    (∀ utss,
       k (utss, None) =
         match compose urls utss with
         | Err p => safebrowsing.Ret (Panicked p)
         | Ok pbResp =>
             safebrowsing.Ret (Returned (encoded (marshal resp pbResp mime)))
         end).
Proof.
  intros Hm%eqb_true Hu Hp. unfold serveLookups. rewrite Hm, Hu, Hp; simpl.
  eexists; split; [reflexivity|]. split; [done|].
  intros utss. destruct (compose urls utss); [|done].
  unfold encoded. by destruct (marshal _ _ _) as [w [e|]].
Qed.

(** ** The list handler, step by step *)

Lemma list_descriptors_map tls :
  list_descriptors tls = new_ThreatListDescriptor <$> tls.
Proof.
  unfold list_descriptors.
  enough (∀ acc,
    foldl (λ acc td, (acc ++ [new_ThreatListDescriptor td])%list) acc tls
    = (acc ++ (new_ThreatListDescriptor <$> tls))%list) as Hgen by apply (Hgen []).
  induction tls as [|td tls IH]; intros acc; simpl.
  - by rewrite app_nil_r.
  - rewrite IH. by rewrite <-app_assoc.
Qed.

Lemma subscribed_configured conf :
  safebrowsing.ThreatLists conf ≠ [] →
  subscribed conf = safebrowsing.ThreatLists conf.
Proof. unfold subscribed. by destruct (safebrowsing.ThreatLists conf). Qed.

Lemma subscribed_default conf :
  safebrowsing.ThreatLists conf = [] →
  subscribed conf = safebrowsing.DefaultThreatLists.
Proof. unfold subscribed. by intros ->. Qed.

Lemma serveLists_bad_alt resp req conf :
  http.Get (http.Query req) "alt" ∉ [""; "json"; "proto"] →
  serveLists resp req conf =
    http.Error resp "invalid request type" http.StatusBadRequest.
Proof.
  rewrite !not_elem_of_cons. intros (Ha & Hb & Hc & _).
  apply eqb_false in Ha, Hb, Hc. unfold serveLists. by rewrite Ha, Hb, Hc.
Qed.

Lemma serveLists_not_GET resp req conf :
  http.Get (http.Query req) "alt" ∈ [""; "json"; "proto"] →
  http.Method req ≠ "GET" →
  serveLists resp req conf =
    http.Error resp "invalid method" http.StatusBadRequest.
Proof.
  intros Halt Hm%eqb_false. unfold serveLists. rewrite Hm.
  rewrite !elem_of_cons in Halt.
  destruct Halt as [-> | [-> | [-> | []%elem_of_nil]]]; reflexivity.
Qed.

Lemma serveLists_GET resp req conf :
  http.Get (http.Query req) "alt" ∈ [""; "json"; "proto"] →
  http.Method req = "GET" →
  serveLists resp req conf =
    encoded (marshal resp
               {| pb.ThreatLists := new_ThreatListDescriptor <$> subscribed conf |}
               (list_mime (http.Get (http.Query req) "alt"))).
Proof.
  intros Halt Hm%eqb_true. unfold serveLists. rewrite Hm.
  rewrite list_descriptors_map.
  rewrite !elem_of_cons in Halt.
  destruct Halt as [-> | [-> | [-> | []%elem_of_nil]]]; reflexivity.
Qed.

(** ** The response loop *)

Lemma int32_uint16 z : 0 ≤ z < 2 ^ 16 → pb.int32 z = z.
Proof.
  intros Hz. unfold pb.int32.
  rewrite Z.mod_small; lia.
Qed.

Lemma pb_enum_u16 x : pb_enum x = safebrowsing.u16 x.
Proof.
  unfold pb_enum. apply int32_uint16.
  destruct x as [z Hz]; simpl. by apply bool_decide_unpack in Hz.
Qed.

#[local] Instance pb_enum_inj : Inj (=) (=) pb_enum.
Proof.
  intros x y. rewrite !pb_enum_u16. apply safebrowsing.uint16_eq.
Qed.

#[local] Instance descriptor_triple_inj : Inj (=) (=) descriptor_triple.
Proof.
  intros [a b c] [a' b' c']; unfold descriptor_triple; simpl.
  intros [= Ha%(inj _) Hb%(inj _) Hc%(inj _)]. by subst.
Qed.

Lemma triple_new_ThreatMatch url td :
  pb.triple (new_ThreatMatch url td) = descriptor_triple td.
Proof. reflexivity. Qed.

Lemma emit_spec urls i tds acc :
  emit urls i tds acc =
    match tds with
    | [] => Ok acc
    | _ =>
        match urls !! i with
        | Some url => Ok (acc ++ (new_ThreatMatch url <$> tds))%list
        | None => Err index_out_of_range
        end
    end.
Proof.
  revert acc. induction tds as [|td tds IH]; intros acc; [done|]. simpl.
  destruct (urls !! i) as [url|] eqn:Hu; [|done].
  rewrite IH. destruct tds as [|td' tds]; simpl; [done|].
  by rewrite <-app_assoc.
Qed.

Lemma condense_lookup uts td :
  condense uts !! td =
    if decide (td ∈ safebrowsing.Descriptor <$> uts) then Some true else None.
Proof.
  unfold condense.
  enough (∀ m : gmap safebrowsing.ThreatDescriptor bool,
    foldl (λ tdm ut, <[safebrowsing.Descriptor ut := true]> tdm) m uts !! td
    = if decide (td ∈ safebrowsing.Descriptor <$> uts) then Some true
      else m !! td) as Hgen.
  { rewrite Hgen. by rewrite lookup_empty. }
  induction uts as [|ut uts IH]; intros m.
  - rewrite fmap_nil, decide_False by apply not_elem_of_nil. done.
  - rewrite fmap_cons. simpl foldl. rewrite IH.
    destruct (decide (td ∈ safebrowsing.Descriptor <$> uts)) as [Hin|Hin].
    + rewrite decide_True; [done|]. by right.
    + destruct (decide (td = safebrowsing.Descriptor ut)) as [->|Hne].
      * rewrite lookup_insert_eq. rewrite decide_True; [done|]. by left.
      * rewrite lookup_insert_ne by done.
        rewrite decide_False; [done|]. by intros [?|?]%elem_of_cons.
Qed.

Lemma range_keys_NoDup i m : NoDup (range_keys i m).
Proof.
  rewrite range_keys_perm. apply NoDup_fst_map_to_list.
Qed.

Lemma elem_of_range_keys i uts td :
  td ∈ range_keys i (condense uts) ↔
  ∃ ut, ut ∈ uts ∧ safebrowsing.Descriptor ut = td.
Proof.
  rewrite range_keys_perm, list_elem_of_fmap. split.
  - intros [[td' v] [-> Hin%elem_of_map_to_list]]; simpl in *.
    rewrite condense_lookup in Hin.
    destruct (decide _) as [Hd|]; [|done].
    apply list_elem_of_fmap in Hd as [ut [-> Hut]]. by exists ut.
  - intros [ut [Hut <-]]. exists (safebrowsing.Descriptor ut, true).
    split; [done|]. apply elem_of_map_to_list.
    rewrite condense_lookup, decide_True; [done|].
    apply list_elem_of_fmap. by exists ut.
Qed.

Lemma range_keys_nil i uts : range_keys i (condense uts) = [] ↔ uts = [].
Proof.
  split.
  - intros Hnil. destruct uts as [|ut uts]; [done|].
    assert (safebrowsing.Descriptor ut ∈ range_keys i (condense (ut :: uts))) as Hin.
    { apply elem_of_range_keys. exists ut. split; [by left|done]. }
    rewrite Hnil in Hin. by apply elem_of_nil in Hin.
  - intros ->. apply Permutation_nil_r. by rewrite range_keys_perm.
Qed.

Lemma group_at_keys_nil urls i uts :
  range_keys i (condense uts) = [] → group_at urls i uts = [].
Proof. unfold group_at. intros ->. by destruct (urls !! i). Qed.

Lemma group_at_Some urls i uts url :
  urls !! i = Some url →
  group_at urls i uts = new_ThreatMatch url <$> range_keys i (condense uts).
Proof. unfold group_at. by intros ->. Qed.

Lemma compose_from_Ok urls i utss acc r :
  compose_from urls i utss acc = Ok r →
  r = (acc ++ concat (imap (λ j, group_at urls (i + j)) utss))%list ∧
  ∀ j uts, utss !! j = Some uts → uts ≠ [] → (i + j < length urls)%nat.
Proof.
  revert i acc. induction utss as [|uts utss IH]; intros i acc.
  - simpl. intros [= <-]. split; [by rewrite app_nil_r | done].
  - cbn [compose_from]. rewrite emit_spec, imap_cons, Nat.add_0_r.
    rewrite (imap_ext _ (λ j, group_at urls (S i + j)))
      by (intros; simpl; f_equal; lia).
    destruct (range_keys i (condense uts)) as [|td tds] eqn:Hk.
    + intros [-> Hin]%IH. split.
      * by rewrite (group_at_keys_nil _ _ _ Hk).
      * intros [|j] uts' Hj Hne; simpl in Hj.
        -- apply range_keys_nil in Hk. congruence.
        -- specialize (Hin j uts' Hj Hne). lia.
    + destruct (urls !! i) as [url|] eqn:Hu; [|done].
      intros [-> Hin]%IH. split.
      * rewrite (group_at_Some _ _ uts _ Hu), Hk. simpl concat.
        by rewrite <-app_assoc.
      * intros [|j] uts' Hj Hne; simpl in Hj.
        -- apply lookup_lt_Some in Hu. lia.
        -- specialize (Hin j uts' Hj Hne). lia.
Qed.

Lemma compose_from_Err urls i utss acc e :
  compose_from urls i utss acc = Err e →
  e = index_out_of_range ∧
  ∃ j uts, utss !! j = Some uts ∧ uts ≠ [] ∧ (length urls ≤ i + j)%nat.
Proof.
  revert i acc. induction utss as [|uts utss IH]; intros i acc; [done|].
  cbn [compose_from]. rewrite emit_spec.
  destruct (range_keys i (condense uts)) as [|td tds] eqn:Hk.
  - intros [-> (j & uts' & Hj & Hne & Hle)]%IH. split; [done|].
    exists (S j), uts'. repeat split; [done..|lia].
  - destruct (urls !! i) as [url|] eqn:Hu.
    + intros [-> (j & uts' & Hj & Hne & Hle)]%IH. split; [done|].
      exists (S j), uts'. repeat split; [done..|lia].
    + intros [= <-]. split; [done|].
      exists 0%nat, uts. repeat split.
      * intros ->. by rewrite (proj2 (range_keys_nil i [])) in Hk.
      * apply lookup_ge_None in Hu. lia.
Qed.

Lemma compose_Ok urls utss resp :
  compose urls utss = Ok resp →
  pb.Matches resp = concat (imap (group_at urls) utss) ∧
  ∀ j uts, utss !! j = Some uts → uts ≠ [] → (j < length urls)%nat.
Proof.
  unfold compose.
  destruct (compose_from urls 0 utss []) as [matches|e] eqn:Hc; [|done].
  intros [= <-]. by apply compose_from_Ok in Hc as [-> Hin].
Qed.

Lemma compose_Err urls utss e :
  compose urls utss = Err e →
  e = index_out_of_range ∧
  ∃ j uts, utss !! j = Some uts ∧ uts ≠ [] ∧ (length urls ≤ j)%nat.
Proof.
  unfold compose.
  destruct (compose_from urls 0 utss []) as [matches|e'] eqn:Hc; [done|].
  intros [= <-]. by apply compose_from_Err in Hc.
Qed.

Lemma compose_in_range urls utss :
  (∀ j uts, utss !! j = Some uts → uts ≠ [] → (j < length urls)%nat) →
  ∃ resp, compose urls utss = Ok resp.
Proof.
  intros Hin. destruct (compose urls utss) as [resp|e] eqn:Hc; [by exists resp|].
  apply compose_Err in Hc as [_ (j & uts & Hj & Hne & Hle)].
  specialize (Hin j uts Hj Hne). lia.
Qed.


(** ** The group of one position *)

Lemma group_at_threat urls i uts m :
  m ∈ group_at urls i uts →
  ∃ url, urls !! i = Some url ∧
         pb.tm_Threat m = Some {| pb.Hash := []; pb.Url := url |}.
Proof.
  unfold group_at. destruct (urls !! i) as [url|]; [|by intros ?%elem_of_nil].
  intros (td & -> & _)%list_elem_of_fmap. by exists url.
Qed.

Lemma group_at_triples urls i uts :
  pb.triple <$> group_at urls i uts =
    match urls !! i with
    | Some _ => descriptor_triple <$> range_keys i (condense uts)
    | None => []
    end.
Proof.
  unfold group_at. destruct (urls !! i) as [url|]; [|done].
  rewrite <-list_fmap_compose. by apply list_fmap_ext.
Qed.

Lemma group_at_NoDup urls i uts : NoDup (pb.triple <$> group_at urls i uts).
Proof.
  rewrite group_at_triples. destruct (urls !! i); [|constructor].
  apply NoDup_fmap; [apply _|]. apply range_keys_NoDup.
Qed.

Lemma elem_of_group_at urls i uts t :
  (uts ≠ [] → (i < length urls)%nat) →
  t ∈ pb.triple <$> group_at urls i uts ↔
  ∃ ut, ut ∈ uts ∧ descriptor_triple (safebrowsing.Descriptor ut) = t.
Proof.
  intros Hin. rewrite group_at_triples.
  destruct (urls !! i) as [url|] eqn:Hu.
  - rewrite list_elem_of_fmap. split.
    + intros (td & -> & (ut & Hut & <-)%elem_of_range_keys). by exists ut.
    + intros (ut & Hut & <-). exists (safebrowsing.Descriptor ut).
      split; [done|]. apply elem_of_range_keys. by exists ut.
  - apply lookup_ge_None in Hu. split; [by intros ?%elem_of_nil|].
    intros (ut & Hut & _). destruct uts; [by apply elem_of_nil in Hut|].
    assert (i < length urls)%nat by by apply Hin. lia.
Qed.

Lemma once_in_NoDup {A B} `{EqDecision B} (f : A → B) (l : list A) (t : B) :
  NoDup (f <$> l) → t ∈ f <$> l → length (filter (λ x, f x = t) l) = 1%nat.
Proof.
  induction l as [|x l IH]; [by intros _ ?%elem_of_nil|].
  rewrite fmap_cons, NoDup_cons, elem_of_cons. intros [Hx Hl] Ht.
  destruct (decide (f x = t)) as [<-|Hne].
  - rewrite filter_cons_True by done. simpl. f_equal.
    apply length_zero_iff_nil, elem_of_nil_inv. intros y.
    rewrite list_elem_of_filter. intros [Hy Hin]. apply Hx. rewrite <-Hy.
    by apply list_elem_of_fmap_2.
  - rewrite filter_cons_False by done. apply IH; [done|].
    by destruct Ht as [->|].
Qed.

Lemma serveLookups_run resp req mime pbReq urls sb utss :
  http.Method req = "POST" →
  unmarshal req pb.new_FindThreatMatchesRequest = (mime, pbReq, None) →
  parse_entries (pb.GetThreatEntries (pb.GetThreatInfo pbReq)) [] = Some urls →
  safebrowsing.sb_LookupURLs sb urls = (utss, None) →
  safebrowsing.run sb (serveLookups resp req) =
    (match compose urls utss with
     | Err p => Panicked p
     | Ok pbResp => Returned (encoded (marshal resp pbResp mime))
     end, [safebrowsing.CallLookupURLs urls]).
Proof.
  intros Hm Hu Hp Hsb.
  destruct (serveLookups_looked_up resp req mime pbReq urls Hm Hu Hp)
    as (k & -> & _ & Hk).
  simpl. rewrite Hsb, Hk. by destruct (compose urls utss).
Qed.

Lemma serveStatus_run resp req sb stats sbErr :
  safebrowsing.sb_Status sb = (stats, sbErr) →
  safebrowsing.run sb (serveStatus resp req) =
    (Returned
       match json_Marshal {| Stats := stats; Error := default "" sbErr |} with
       | Err e => http.Error resp e http.StatusInternalServerError
       | Ok buf =>
           (http.Write (http.Header_Set resp "Content-Type" mimeJSON) buf).1
       end, [safebrowsing.CallStatus]).
Proof.
  intros Hsb. unfold serveStatus. cbn [safebrowsing.run]. rewrite Hsb.
  destruct sbErr as [e|]; cbn [default from_option id];
    by destruct (json_Marshal _).
Qed.

(** ** The claims *)

(** C1, as the handler has it: duplicates are condensed per position of
    the batch. The matches of a response are the groups of the
    positions, one after the other; within the group of one position no
    two matches share a (threatType, platformType, threatEntryType)
    triple, and a triple the classifier returned for that position, once
    or several times, is in the group exactly once. (A URL that occurs
    at two positions has two groups, which may repeat a triple.) *)
Theorem C1_dedup_per_position urls utss resp :
  compose urls utss = Ok resp →
  ∃ groups,
    pb.Matches resp = concat groups ∧
    length groups = length utss ∧
    ∀ i g uts, groups !! i = Some g → utss !! i = Some uts →
      (∀ m, m ∈ g → threat_url m = urls !! i) ∧
      NoDup (pb.triple <$> g) ∧
      ∀ ut, ut ∈ uts →
        length (filter (λ m, pb.triple m
                             = descriptor_triple (safebrowsing.Descriptor ut)) g)
        = 1%nat.
Proof.
  intros [Hm Hin]%compose_Ok. exists (imap (group_at urls) utss).
  split; [done|]. split; [apply length_imap|].
  intros i g uts Hg Huts. rewrite list_lookup_imap, Huts in Hg.
  injection Hg as <-. split; [|split].
  - intros m (url & Hu & Ht)%group_at_threat.
    unfold threat_url. by rewrite Ht, Hu.
  - apply group_at_NoDup.
  - intros ut Hut. apply once_in_NoDup; [apply group_at_NoDup|].
    apply elem_of_group_at; [by apply Hin|]. by exists ut.
Qed.


(** C3, as the handler has it: the lookup endpoint switches on the [alt]
    query parameter, on the Content-Type header when [alt] is empty or
    absent. "json" and "application/json" select JSON, "proto" and
    "application/x-protobuf" select the binary encoding, and a reply the
    handler gets to encode carries the selected type. Any other value,
    the empty one included, makes a POST end in 400 "invalid interchange
    format". *)
Theorem C3_lookup_outbound_encoding resp req :
  fresh resp →
  http.Method req = "POST" →
  (selector req = "json" ∨ selector req = mimeJSON →
     (unmarshal req pb.new_FindThreatMatchesRequest).1.1 = mimeJSON) ∧
  (selector req = "proto" ∨ selector req = mimeProto →
     (unmarshal req pb.new_FindThreatMatchesRequest).1.1 = mimeProto) ∧
  (selector req ∉ ["json"; mimeJSON; "proto"; mimeProto] →
     serveLookups resp req =
       safebrowsing.Ret
         (Returned (http.Error resp "invalid interchange format"
                      http.StatusBadRequest)) ∧
     http.StatusCode
       (http.Error resp "invalid interchange format" http.StatusBadRequest) = 400) ∧
  (∀ sb mime pbReq urls utss pbResp w,
     unmarshal req pb.new_FindThreatMatchesRequest = (mime, pbReq, None) →
     parse_entries (pb.GetThreatEntries (pb.GetThreatInfo pbReq)) [] = Some urls →
     safebrowsing.sb_LookupURLs sb urls = (utss, None) →
     compose urls utss = Ok pbResp →
     marshal resp pbResp mime = (w, None) →
     safebrowsing.run sb (serveLookups resp req)
       = (Returned w, [safebrowsing.CallLookupURLs urls]) ∧
     http.ContentType w = mime ∧
     http.StatusCode w = 200).
Proof.
  intros Hfresh Hm. split; [apply unmarshal_json|].
  split; [apply unmarshal_proto|]. split.
  - intros Hsel. split; [|by apply Error_StatusCode].
    eapply serveLookups_undecoded; [done|]. by apply unmarshal_other.
  - intros sb mime pbReq urls utss pbResp w Hu Hp Hsb Hc Hw.
    rewrite (serveLookups_run resp req mime pbReq urls sb utss Hm Hu Hp Hsb).
    rewrite Hc, Hw. split; [done|]. split.
    + by apply marshal_ok in Hw as [? _].
    + by apply (marshal_ok_StatusCode resp pbResp mime).
Qed.

(** C4, as the handler has it: the list endpoint switches on the [alt]
    query parameter alone. An empty or absent [alt] and "json" select
    JSON, "proto" selects the binary encoding; any other value, the two
    full content types included, is answered 400 "invalid request
    type"; the Content-Type header of the request has no part in it. *)
Theorem C4_list_outbound_encoding resp req conf :
  fresh resp →
  let alt := http.Get (http.Query req) "alt" in
  let pbResp :=
    {| pb.ThreatLists := new_ThreatListDescriptor <$> subscribed conf |} in
  (http.Method req = "GET" → alt = "" ∨ alt = "json" →
     serveLists resp req conf = encoded (marshal resp pbResp mimeJSON)) ∧
  (http.Method req = "GET" → alt = "proto" →
     serveLists resp req conf = encoded (marshal resp pbResp mimeProto)) ∧
  (alt ∉ [""; "json"; "proto"] →
     serveLists resp req conf =
       http.Error resp "invalid request type" http.StatusBadRequest ∧
     http.StatusCode (serveLists resp req conf) = 400) ∧
  (∀ header,
     serveLists resp
       {| http.Method := http.Method req; http.Query := http.Query req;
          http.Header := header; http.Body := http.Body req |} conf
     = serveLists resp req conf).
Proof.
  intros Hfresh alt pbResp. subst alt pbResp.
  split; [|split; [|split]].
  - intros Hm Halt.
    rewrite serveLists_GET; [|rewrite !elem_of_cons; tauto|done].
    by destruct Halt as [-> | ->].
  - intros Hm Halt.
    rewrite serveLists_GET; [|rewrite !elem_of_cons; tauto|done].
    by rewrite Halt.
  - intros Halt. rewrite serveLists_bad_alt by done.
    split; [done|]. by apply Error_StatusCode.
  - intros header. reflexivity.
Qed.

(** C5: whatever error the classifier reports, [/status] calls the
    classifier's status operation once and returns; the reply encodes
    the counters and the classifier's error message (the empty string
    when it reports none) and has status 200 and the JSON content type;
    the one way to a 500 is a failure of the handler's own encoder. *)
Theorem C5_status_always_200 resp req sb stats sbErr :
  fresh resp →
  safebrowsing.sb_Status sb = (stats, sbErr) →
  let reply := {| Stats := stats; Error := default "" sbErr |} in
  ∃ w,
    safebrowsing.run sb (serveStatus resp req)
      = (Returned w, [safebrowsing.CallStatus]) ∧
    (∀ buf, json_Marshal reply = Ok buf →
       http.StatusCode w = 200 ∧
       http.ContentType w = mimeJSON ∧
       http.rw_Body w = (http.rw_Body resp ++ buf)%list) ∧
    (http.StatusCode w = 200 ∨ http.StatusCode w = 500) ∧
    (http.StatusCode w = 500 ↔ ∃ e, json_Marshal reply = Err e).
Proof.
  intros Hfresh Hsb reply.
  rewrite (serveStatus_run resp req sb stats sbErr Hsb). fold reply.
  destruct (json_Marshal reply) as [buf|e] eqn:Hj.
  - eexists. split; [reflexivity|].
    pose proof (Write_StatusCode (http.Header_Set resp "Content-Type" mimeJSON)
                  buf Hfresh) as Hcode.
    split; [|split].
    + intros ? [= <-]. split; [done|]. split.
      * unfold http.ContentType. rewrite Write_Header.
        apply Header_Set_ContentType.
      * apply (Write_Body (http.Header_Set resp "Content-Type" mimeJSON) buf).
    + by left.
    + rewrite Hcode. split; [done|]. by intros [? ?].
  - eexists. split; [reflexivity|].
    pose proof (Error_StatusCode resp e http.StatusInternalServerError Hfresh)
      as Hcode.
    split; [done|]. split; [by right|].
    split; [by exists e|done].
Qed.

(** C6, as the handlers have it: the lookup endpoint answers every
    method other than POST with 400 "invalid method"; the list endpoint
    answers a method other than GET with 400 "invalid method" when the
    [alt] parameter is one it accepts. It looks at [alt] first: any other
    [alt] is answered 400 "invalid request type", whatever the method. *)
Theorem C6_invalid_method resp req conf :
  fresh resp →
  (http.Method req ≠ "POST" →
     serveLookups resp req =
       safebrowsing.Ret
         (Returned (http.Error resp "invalid method" http.StatusBadRequest))) ∧
  (http.Method req ≠ "GET" →
     http.Get (http.Query req) "alt" ∈ [""; "json"; "proto"] →
     serveLists resp req conf =
       http.Error resp "invalid method" http.StatusBadRequest) ∧
  (http.Get (http.Query req) "alt" ∉ [""; "json"; "proto"] →
     serveLists resp req conf =
       http.Error resp "invalid request type" http.StatusBadRequest) ∧
  http.StatusCode (http.Error resp "invalid method" http.StatusBadRequest) = 400.
Proof.
  intros Hfresh. split; [apply serveLookups_not_POST|].
  split; [|split; [apply serveLists_bad_alt | by apply Error_StatusCode]].
  intros Hm Halt. by apply serveLists_not_GET.
Qed.

(** C7, as the handler has it: a GET of [/v4/threatLists] with an [alt]
    the endpoint accepts (empty or absent, "json", "proto") encodes the
    configured descriptors, in the configured order, when the
    configuration has any, and the library's default lists, in their
    order, when it has none; the handler registered at the path makes no
    call to the classifier. *)
Theorem C7_lists_echo_configuration resp req conf :
  http.Method req = "GET" →
  http.Get (http.Query req) "alt" ∈ [""; "json"; "proto"] →
  ∃ mime tls,
    (mime = mimeJSON ∨ mime = mimeProto) ∧
    serveLists resp req conf =
      encoded (marshal resp
                 {| pb.ThreatLists := new_ThreatListDescriptor <$> tls |} mime) ∧
    (safebrowsing.ThreatLists conf ≠ [] → tls = safebrowsing.ThreatLists conf) ∧
    (safebrowsing.ThreatLists conf = [] → tls = safebrowsing.DefaultThreatLists) ∧
    ∃ h,
      handler_at (handlers conf) getThreatListsPath = Some h ∧
      ∀ sb, safebrowsing.run sb (h resp req)
            = (Returned (serveLists resp req conf), []).
Proof.
  intros Hm Halt.
  exists (list_mime (http.Get (http.Query req) "alt")), (subscribed conf).
  split; [|split; [by apply serveLists_GET|]].
  - unfold list_mime. destruct (String.eqb _ _); auto.
  - split; [apply subscribed_configured|].
    split; [apply subscribed_default|].
    eexists. split; [reflexivity|done].
Qed.

(** C8: the matches of a response are the groups of the positions of
    the classifier's reply, in the order of the positions, and every
    match of the group of position [i] has as its Threat the entry that
    holds the queried URL [urls[i]] and nothing else. *)
Theorem C8_threat_echoes_query_in_order urls utss resp :
  compose urls utss = Ok resp →
  ∃ groups,
    pb.Matches resp = concat groups ∧
    length groups = length utss ∧
    ∀ i g uts, groups !! i = Some g → utss !! i = Some uts →
      (∀ m, m ∈ g →
         ∃ url, urls !! i = Some url ∧
                pb.tm_Threat m = Some {| pb.Hash := []; pb.Url := url |}) ∧
      (∀ t, t ∈ pb.triple <$> g ↔
            ∃ ut, ut ∈ uts ∧ descriptor_triple (safebrowsing.Descriptor ut) = t).
Proof.
  intros [Hm Hin]%compose_Ok. exists (imap (group_at urls) utss).
  split; [done|]. split; [apply length_imap|].
  intros i g uts Hg Huts. rewrite list_lookup_imap, Huts in Hg.
  injection Hg as <-. split.
  - intros m. apply group_at_threat.
  - intros t. apply elem_of_group_at. by apply Hin.
Qed.


(** ** Beyond the claims: the rest of the lookup handler *)

Lemma unmarshal_accepted {M} `{!pb.Message M} (req : http.Request) (pbReq : M) :
  accepted (selector req) →
  ∃ mime,
    (mime = mimeJSON ∨ mime = mimeProto) ∧
    unmarshal req pbReq =
      let ct := http.Get (http.Header req) "Content-Type" in
      if String.eqb ct mimeJSON then
        match pb.jsonpb_Unmarshal (http.Body req) with
        | Err e => (mime, pbReq, Some e)
        | Ok m => (mime, m, None)
        end
      else if String.eqb ct mimeProto then
        match pb.proto_Unmarshal (http.Body req) with
        | Err e => (mime, pbReq, Some e)
        | Ok m => (mime, m, None)
        end
      else (mime, pbReq, None).
Proof.
  unfold accepted. rewrite !elem_of_cons, elem_of_nil.
  intros Hsel. rewrite unmarshal_unfold. cbv zeta.
  destruct (String.eqb (selector req) "json" || String.eqb (selector req) mimeJSON)
    eqn:Hj.
  - exists mimeJSON. split; [by left|done].
  - assert (String.eqb (selector req) "proto"
            || String.eqb (selector req) mimeProto = true) as ->.
    { destruct Hsel as [Hs|[Hs|[Hs|[Hs|[]]]]]; rewrite Hs in *; done. }
    exists mimeProto. split; [by right|done].
Qed.

Lemma serveLookups_run_any resp req mime pbReq urls sb :
  http.Method req = "POST" →
  unmarshal req pb.new_FindThreatMatchesRequest = (mime, pbReq, None) →
  parse_entries (pb.GetThreatEntries (pb.GetThreatInfo pbReq)) [] = Some urls →
  safebrowsing.run sb (serveLookups resp req) =
    (match safebrowsing.sb_LookupURLs sb urls with
     | (_, Some err) =>
         Returned (http.Error resp err http.StatusInternalServerError)
     | (utss, None) =>
         match compose urls utss with
         | Err p => Panicked p
         | Ok pbResp => Returned (encoded (marshal resp pbResp mime))
         end
     end, [safebrowsing.CallLookupURLs urls]).
Proof.
  intros Hm Hu Hp.
  destruct (serveLookups_looked_up resp req mime pbReq urls Hm Hu Hp)
    as (k & -> & Hke & Hk).
  cbn [safebrowsing.run].
  destruct (safebrowsing.sb_LookupURLs sb urls) as [utss [err|]].
  - by rewrite Hke.
  - rewrite Hk. by destruct (compose urls utss).
Qed.

Lemma marshal_error {M} `{!pb.Message M} resp (pbResp : M) mime w e :
  marshal resp pbResp mime = (w, Some e) →
  w = http.Header_Set resp "Content-Type" mime ∧
  (mime = mimeProto ∧ pb.proto_Marshal pbResp = Err e ∨
   mime = mimeJSON ∧ pb.jsonpb_Marshal pbResp = Err e ∨
   mime ≠ mimeProto ∧ mime ≠ mimeJSON ∧ e = "invalid interchange format").
Proof.
  unfold marshal.
  switch_on mime mimeProto; [|switch_on mime mimeJSON].
  - destruct (pb.proto_Marshal pbResp) as [body|e'] eqn:Hb.
    + by rewrite Write_no_error.
    + intros [= <- <-]. split; [done|]. by left.
  - destruct (pb.jsonpb_Marshal pbResp) as [body|e'] eqn:Hb.
    + by rewrite Write_no_error.
    + intros [= <- <-]. split; [done|]. right. by left.
  - intros [= <- <-]. split; [done|]. right. by right.
Qed.

Lemma encoded_StatusCode {M} `{!pb.Message M} resp (pbResp : M) mime :
  fresh resp →
  match marshal resp pbResp mime with
  | (_, None) => http.StatusCode (encoded (marshal resp pbResp mime)) = 200
  | (_, Some _) => http.StatusCode (encoded (marshal resp pbResp mime)) = 500
  end.
Proof.
  intros Hfresh. destruct (marshal resp pbResp mime) as [w [e|]] eqn:Hw.
  - unfold encoded. apply Error_StatusCode. by eapply marshal_fresh.
  - unfold encoded. by eapply marshal_ok_StatusCode.
Qed.

(** X1: a POST whose body the codec named by the Content-Type header
    cannot decode is answered 400 with the decoder's error text, and the
    handler returns at once: no classifier call is made. *)
Theorem X1_decode_failure_is_400 resp req e :
  fresh resp →
  http.Method req = "POST" →
  accepted (selector req) →
  (http.Get (http.Header req) "Content-Type" = mimeJSON ∧
   pb.jsonpb_Unmarshal (M := pb.FindThreatMatchesRequest) (http.Body req)
   = Err e) ∨
  (http.Get (http.Header req) "Content-Type" = mimeProto ∧
   pb.proto_Unmarshal (M := pb.FindThreatMatchesRequest) (http.Body req)
   = Err e) →
  serveLookups resp req =
    safebrowsing.Ret (Returned (http.Error resp e http.StatusBadRequest)) ∧
  http.StatusCode (http.Error resp e http.StatusBadRequest) = 400.
Proof.
  intros Hfresh Hm Hsel Hdec. split; [|by apply Error_StatusCode].
  destruct (unmarshal_accepted req pb.new_FindThreatMatchesRequest Hsel)
    as (mime & _ & Hu).
  eapply (serveLookups_undecoded resp req mime); [done|].
  rewrite Hu. cbv zeta. destruct Hdec as [[-> ->] | [-> ->]]; reflexivity.
Qed.

(** X2: a POST with an accepted selector and a Content-Type that is
    neither of the two mime types has its body left undecoded: whatever
    the body holds, the handler looks up the empty list of URLs. *)
Theorem X2_undecoded_body_looks_up_nothing resp req sb :
  http.Method req = "POST" →
  accepted (selector req) →
  http.Get (http.Header req) "Content-Type" ≠ mimeJSON →
  http.Get (http.Header req) "Content-Type" ≠ mimeProto →
  (∃ out, safebrowsing.run sb (serveLookups resp req)
          = (out, [safebrowsing.CallLookupURLs []])) ∧
  ∀ body,
    safebrowsing.run sb
      (serveLookups resp
         {| http.Method := http.Method req; http.Query := http.Query req;
            http.Header := http.Header req; http.Body := body |})
    = safebrowsing.run sb (serveLookups resp req).
Proof.
  intros Hm Hsel Hj%eqb_false Hp%eqb_false.
  assert (∀ r, http.Method r = "POST" → selector r = selector req →
               http.Get (http.Header r) "Content-Type"
               = http.Get (http.Header req) "Content-Type" →
               ∃ mime, (mime = mimeJSON ∨ mime = mimeProto) ∧
                 unmarshal r pb.new_FindThreatMatchesRequest
                 = (mime, pb.new_FindThreatMatchesRequest, None) ∧
                 (String.eqb (selector req) "json"
                  || String.eqb (selector req) mimeJSON = true → mime = mimeJSON) ∧
                 (String.eqb (selector req) "json"
                  || String.eqb (selector req) mimeJSON = false → mime = mimeProto))
    as Hun.
  { intros r Hrm Hrs Hrc. rewrite unmarshal_unfold. cbv zeta.
    rewrite Hrs, Hrc, Hj, Hp.
    destruct (String.eqb (selector req) "json"
              || String.eqb (selector req) mimeJSON) eqn:Hsj.
    - exists mimeJSON. by repeat split; [left|..].
    - assert (String.eqb (selector req) "proto"
              || String.eqb (selector req) mimeProto = true) as ->.
      { unfold accepted in Hsel. rewrite !elem_of_cons, elem_of_nil in Hsel.
        destruct Hsel as [Hs|[Hs|[Hs|[Hs|[]]]]]; rewrite Hs in *; done. }
      exists mimeProto. by repeat split; [right|..]. }
  destruct (Hun req Hm eq_refl eq_refl) as (mime & _ & Hu & Hmj & Hmp).
  assert (parse_entries
            (pb.GetThreatEntries (pb.GetThreatInfo pb.new_FindThreatMatchesRequest))
            [] = Some []) as Hnone by reflexivity.
  split.
  - rewrite (serveLookups_run_any resp req mime _ [] sb Hm Hu Hnone). eauto.
  - intros body.
    set (req' := {| http.Method := http.Method req; http.Query := http.Query req;
                    http.Header := http.Header req; http.Body := body |}).
    assert (http.Method req' = "POST") as Hm' by exact Hm.
    destruct (Hun req' Hm' eq_refl eq_refl) as (mime' & _ & Hu' & Hmj' & Hmp').
    assert (mime' = mime) as ->.
    { destruct (String.eqb (selector req) "json"
                || String.eqb (selector req) mimeJSON);
        [rewrite Hmj, Hmj' | rewrite Hmp, Hmp']; done. }
    rewrite (serveLookups_run_any resp req' mime _ [] sb Hm' Hu' Hnone).
    by rewrite (serveLookups_run_any resp req mime _ [] sb Hm Hu Hnone).
Qed.

(** X3: when every entry of the decoded request is a plain URL entry, the
    handler makes one call to the classifier, a lookup of all the URLs of
    the request in the order of the entries, and no other call. *)
Theorem X3_one_batch_call_in_entry_order resp req mime pbReq sb :
  http.Method req = "POST" →
  unmarshal req pb.new_FindThreatMatchesRequest = (mime, pbReq, None) →
  Forall (λ u, ¬ invalid_entry u) (pb.GetThreatEntries (pb.GetThreatInfo pbReq)) →
  ∃ out,
    safebrowsing.run sb (serveLookups resp req)
    = (out, [safebrowsing.CallLookupURLs
               (pb.Url <$> pb.GetThreatEntries (pb.GetThreatInfo pbReq))]).
Proof.
  intros Hm Hu Hall. apply (parse_entries_valid _ []) in Hall.
  rewrite (serveLookups_run_any resp req mime pbReq _ sb Hm Hu Hall). eauto.
Qed.

(** X4: when the classifier's lookup returns an error, the handler
    answers 500 with the error's text; it does not look at the results
    returned next to the error, so no reply can make it panic then. *)
Theorem X4_classifier_failure_is_500 resp req mime pbReq urls sb utss e :
  fresh resp →
  http.Method req = "POST" →
  unmarshal req pb.new_FindThreatMatchesRequest = (mime, pbReq, None) →
  parse_entries (pb.GetThreatEntries (pb.GetThreatInfo pbReq)) [] = Some urls →
  safebrowsing.sb_LookupURLs sb urls = (utss, Some e) →
  safebrowsing.run sb (serveLookups resp req)
  = (Returned (http.Error resp e http.StatusInternalServerError),
     [safebrowsing.CallLookupURLs urls]) ∧
  http.StatusCode (http.Error resp e http.StatusInternalServerError) = 500.
Proof.
  intros Hfresh Hm Hu Hp Hsb. split; [|by apply Error_StatusCode].
  rewrite (serveLookups_run_any resp req mime pbReq urls sb Hm Hu Hp).
  by rewrite Hsb.
Qed.


(** X6: when the encoder fails on the composed response, the lookup
    handler answers 500 with the encoder's error text, as plain text; the
    status is the 500 because nothing had been written before. The error
    is the codec's own: the mime [unmarshal] chose is one [marshal]
    knows. *)
Theorem X6_encode_failure_is_500 resp req mime pbReq urls sb utss pbResp w e :
  fresh resp →
  http.Method req = "POST" →
  unmarshal req pb.new_FindThreatMatchesRequest = (mime, pbReq, None) →
  parse_entries (pb.GetThreatEntries (pb.GetThreatInfo pbReq)) [] = Some urls →
  safebrowsing.sb_LookupURLs sb urls = (utss, None) →
  compose urls utss = Ok pbResp →
  marshal resp pbResp mime = (w, Some e) →
  safebrowsing.run sb (serveLookups resp req)
  = (Returned (http.Error w e http.StatusInternalServerError),
     [safebrowsing.CallLookupURLs urls]) ∧
  http.StatusCode (http.Error w e http.StatusInternalServerError) = 500 ∧
  http.ContentType (http.Error w e http.StatusInternalServerError)
  = "text/plain; charset=utf-8" ∧
  (mime = mimeProto ∧ pb.proto_Marshal pbResp = Err e ∨
   mime = mimeJSON ∧ pb.jsonpb_Marshal pbResp = Err e).
Proof.
  intros Hfresh Hm Hu Hp Hsb Hc Hw.
  rewrite (serveLookups_run_any resp req mime pbReq urls sb Hm Hu Hp).
  rewrite Hsb, Hc, Hw. split; [done|].
  split; [apply Error_StatusCode, (marshal_fresh resp pbResp mime w e Hfresh Hw)|].
  split; [apply Error_ContentType|].
  apply marshal_error in Hw as [_ [?|[?|(Hp' & Hj' & _)]]]; [by left|by right|].
  by destruct (unmarshal_ok_mime req _ pbReq mime Hu).
Qed.


(** X16: the two directions are negotiated apart. For requests that
    [unmarshal] accepts, the decoded message and the decode error depend
    on the Content-Type header and the body alone, and the mime of the
    reply on the selector alone: a request may arrive in one encoding
    and ask for its reply in the other. *)
Theorem X16_inbound_and_outbound_are_independent {M} `{!pb.Message M}
    (req req' : http.Request) (pbReq : M) :
  accepted (selector req) →
  accepted (selector req') →
  (http.Get (http.Header req) "Content-Type"
   = http.Get (http.Header req') "Content-Type" →
   http.Body req = http.Body req' →
   (unmarshal req pbReq).1.2 = (unmarshal req' pbReq).1.2 ∧
   (unmarshal req pbReq).2 = (unmarshal req' pbReq).2) ∧
  (selector req = selector req' →
   (unmarshal req pbReq).1.1 = (unmarshal req' pbReq).1.1).
Proof.
  intros Hsel Hsel'. split.
  - intros Hct Hbody.
    destruct (unmarshal_accepted req pbReq Hsel) as (mime & _ & ->).
    destruct (unmarshal_accepted req' pbReq Hsel') as (mime' & _ & ->).
    cbv zeta. rewrite Hct, Hbody.
    destruct (String.eqb _ mimeJSON);
      [by destruct (pb.jsonpb_Unmarshal _)|].
    destruct (String.eqb _ mimeProto); [by destruct (pb.proto_Unmarshal _)|done].
  - intros Heq. unfold accepted in Hsel.
    rewrite !elem_of_cons, elem_of_nil in Hsel.
    destruct Hsel as [Hs|[Hs|[Hs|[Hs|[]]]]].
    + rewrite !unmarshal_json; [done|left; congruence|by left].
    + rewrite !unmarshal_json; [done|right; congruence|by right].
    + rewrite !unmarshal_proto; [done|left; congruence|by left].
    + rewrite !unmarshal_proto; [done|right; congruence|by right].
Qed.

(** ** Beyond the claims: what the response is made of *)



Lemma elem_of_concat {A} (x : A) (ls : list (list A)) :
  x ∈ concat ls ↔ ∃ l, l ∈ ls ∧ x ∈ l.
Proof.
  induction ls as [|l ls IH]; simpl.
  - split; [by intros ?%elem_of_nil | by intros (l & ?%elem_of_nil & _)].
  - rewrite elem_of_app, IH. split.
    + intros [Hx | (l' & Hl' & Hx)].
      * exists l. split; [by left|done].
      * exists l'. split; [by right|done].
    + intros (l' & [->|Hl']%elem_of_cons & Hx); [by left|].
      right. by exists l'.
Qed.

Lemma elem_of_group_at_match urls i uts m :
  m ∈ group_at urls i uts ↔
  ∃ url ut, urls !! i = Some url ∧ ut ∈ uts ∧
            m = new_ThreatMatch url (safebrowsing.Descriptor ut).
Proof.
  unfold group_at. destruct (urls !! i) as [url|].
  - rewrite list_elem_of_fmap. split.
    + intros (td & -> & (ut & Hut & <-)%elem_of_range_keys). by exists url, ut.
    + intros (url' & ut & [= <-] & Hut & ->).
      exists (safebrowsing.Descriptor ut). split; [done|].
      apply elem_of_range_keys. by exists ut.
  - split; [by intros ?%elem_of_nil | by intros (? & ? & ? & _)].
Qed.

Lemma elem_of_groups urls utss m :
  m ∈ concat (imap (group_at urls) utss) ↔
  ∃ i url uts ut,
    urls !! i = Some url ∧ utss !! i = Some uts ∧ ut ∈ uts ∧
    m = new_ThreatMatch url (safebrowsing.Descriptor ut).
Proof.
  rewrite elem_of_concat. split.
  - intros (g & (i & uts & -> & Huts)%elem_of_lookup_imap
              & (url & ut & Hu & Hut & ->)%elem_of_group_at_match).
    by exists i, url, uts, ut.
  - intros (i & url & uts & ut & Hu & Huts & Hut & ->).
    exists (group_at urls i uts). split.
    + by apply elem_of_lookup_imap_2.
    + apply elem_of_group_at_match. by exists url, ut.
Qed.


(** X9: a response holds exactly the matches the classifier's reply calls
    for: a match is in it if and only if it pairs the URL queried at some
    position with a descriptor the classifier returned for that position.
    The handler invents no match, drops none, and names no URL that was
    not asked about. *)
Theorem X9_matches_are_the_classifier_results urls utss resp m :
  compose urls utss = Ok resp →
  m ∈ pb.Matches resp ↔
  ∃ i url uts ut,
    urls !! i = Some url ∧ utss !! i = Some uts ∧ ut ∈ uts ∧
    m = new_ThreatMatch url (safebrowsing.Descriptor ut).
Proof.
  intros [-> _]%compose_Ok. apply elem_of_groups.
Qed.

(** X10: the response is composed and empty exactly when the classifier
    found nothing at any position; a reply of empty collections never
    panics, whatever its length. *)
Theorem X10_empty_response_iff_nothing_found urls utss :
  (∀ uts, uts ∈ utss → uts = []) ↔
  compose urls utss = Ok {| pb.Matches := [] |}.
Proof.
  split.
  - intros Hclean.
    destruct (compose_in_range urls utss) as [[matches] Hc].
    { intros j uts Hj%list_elem_of_lookup_2 Hne. by destruct (Hne (Hclean _ Hj)). }
    rewrite Hc. do 2 f_equal.
    pose proof Hc as [Hm _]%compose_Ok. simpl in Hm.
    apply elem_of_nil_inv. intros m. rewrite Hm, elem_of_groups.
    intros (i & url & uts & ut & _ & Huts%list_elem_of_lookup_2 & Hut & _).
    rewrite (Hclean _ Huts) in Hut. by apply elem_of_nil in Hut.
  - intros [Hm Hin]%compose_Ok uts [i Hi]%list_elem_of_lookup_1. simpl in Hm.
    destruct uts as [|ut uts]; [done|]. exfalso.
    assert (i < length urls)%nat as [url Hu]%lookup_lt_is_Some_2 by by eapply Hin.
    apply (not_elem_of_nil (new_ThreatMatch url (safebrowsing.Descriptor ut))).
    rewrite Hm. apply elem_of_groups.
    exists i, url, (ut :: uts), ut. repeat split; [done..|by left].
Qed.


(** ** Beyond the claims: the list handler and its wiring *)

(** X12: the replies of the list endpoint. On a fresh response it
    answers 400 when the [alt] parameter is not accepted or the method is
    not GET; otherwise it answers 200 with the Content-Type the [alt]
    selects when the encoder succeeds, and 500 with the encoder's error
    when it fails. *)
Theorem X12_list_endpoint_replies resp req conf :
  fresh resp →
  let alt := http.Get (http.Query req) "alt" in
  let pbResp :=
    {| pb.ThreatLists := new_ThreatListDescriptor <$> subscribed conf |} in
  (alt ∉ [""; "json"; "proto"] ∨ http.Method req ≠ "GET" →
     http.StatusCode (serveLists resp req conf) = 400) ∧
  (alt ∈ [""; "json"; "proto"] → http.Method req = "GET" →
     match marshal resp pbResp (list_mime alt) with
     | (w, None) =>
         serveLists resp req conf = w ∧
         http.StatusCode w = 200 ∧
         http.ContentType w = list_mime alt
     | (w, Some e) =>
         serveLists resp req conf
         = http.Error w e http.StatusInternalServerError ∧
         http.StatusCode (serveLists resp req conf) = 500
     end).
Proof.
  intros Hfresh alt pbResp. subst alt pbResp. split.
  - destruct (decide (http.Get (http.Query req) "alt" ∈ [""; "json"; "proto"]))
      as [Halt|Halt].
    + intros [?|Hm]; [done|].
      rewrite serveLists_not_GET by done. by apply Error_StatusCode.
    + intros _. rewrite serveLists_bad_alt by done. by apply Error_StatusCode.
  - intros Halt Hm. rewrite (serveLists_GET resp req conf Halt Hm).
    pose proof (encoded_StatusCode resp
                  {| pb.ThreatLists := new_ThreatListDescriptor <$> subscribed conf |}
                  (list_mime (http.Get (http.Query req) "alt")) Hfresh) as Hcode.
    destruct (marshal resp _ _) as [w [e|]] eqn:Hw.
    + split; [done|exact Hcode].
    + split; [done|]. split; [exact Hcode|].
      by apply marshal_ok in Hw as [? _].
Qed.

(** X13: as [main] wires it, the list endpoint always reports the
    library's default lists: the configuration [main] builds names no
    threat lists, so a GET with an accepted [alt] encodes
    [DefaultThreatLists], and the handler makes no classifier call. *)
Theorem X13_main_serves_the_default_lists resp req :
  http.Method req = "GET" →
  http.Get (http.Query req) "alt" ∈ [""; "json"; "proto"] →
  ∃ h,
    handler_at (handlers main_conf) getThreatListsPath = Some h ∧
    ∀ sb,
      safebrowsing.run sb (h resp req)
      = (Returned
           (encoded
              (marshal resp
                 {| pb.ThreatLists :=
                      new_ThreatListDescriptor <$> safebrowsing.DefaultThreatLists |}
                 (list_mime (http.Get (http.Query req) "alt")))), []).
Proof.
  intros Hm Halt. eexists. split; [reflexivity|]. intros sb.
  cbn [safebrowsing.run]. by rewrite (serveLists_GET resp req main_conf Halt Hm).
Qed.

(** ** Beyond the claims: parseTemplates *)

Context `{!Templates}.

Lemma parseTemplates_cons (fs : FileSystem) t path paths :
  parseTemplates fs t (path :: paths) =
    match parse_file fs t path with
    | Err e => Err e
    | Ok t' => parseTemplates fs t' paths
    end.
Proof.
  unfold parse_file. cbn [parseTemplates].
  destruct (fs path) as [[tmpl|e]|e]; reflexivity.
Qed.

Lemma parseTemplates_ext (fs fs' : FileSystem) t paths :
  (∀ q, q ∈ paths → fs' q = fs q) →
  parseTemplates fs' t paths = parseTemplates fs t paths.
Proof.
  revert t. induction paths as [|path paths IH]; intros t Hfs; [done|].
  rewrite !parseTemplates_cons. unfold parse_file.
  rewrite (Hfs path) by by left.
  destruct (fs path) as [[tmpl|e]|e]; [|done..].
  destruct (Template_Parse t _); [|done]. apply IH.
  intros q Hq. apply Hfs. by right.
Qed.

(** X14: parsing a list of files composes: parsing [paths] and then
    [more] into the result is the same as parsing the two lists in one
    call, and an error on the first list is the error of the whole. *)
Theorem X14_parseTemplates_app (fs : FileSystem) t paths more :
  parseTemplates fs t (paths ++ more)%list =
    match parseTemplates fs t paths with
    | Err e => Err e
    | Ok t' => parseTemplates fs t' more
    end.
Proof.
  revert t. induction paths as [|path paths IH]; intros t; [done|].
  rewrite <-app_comm_cons, !parseTemplates_cons.
  destruct (parse_file fs t path); [apply IH|done].
Qed.

(** X15: the first file that fails decides. When the files before [path]
    parse and the one at [path] cannot be opened, read or parsed, that
    error is the result, whatever paths follow and whatever the file
    system holds anywhere else: nothing after the failure is looked at. *)
Theorem X15_parseTemplates_first_error (fs fs' : FileSystem) t t' pre path more e :
  parseTemplates fs t pre = Ok t' →
  parse_file fs t' path = Err e →
  (∀ q, q ∈ (pre ++ [path])%list → fs' q = fs q) →
  parseTemplates fs' t (pre ++ path :: more)%list = Err e.
Proof.
  intros Hpre Hfail Hfs.
  enough (parseTemplates fs' t ((pre ++ [path]) ++ more)%list
          = match parseTemplates fs' t (pre ++ [path])%list with
            | Err e => Err e
            | Ok t' => parseTemplates fs' t' more
            end) as Happ.
  { rewrite <-app_assoc in Happ. simpl in Happ. rewrite Happ.
    rewrite (parseTemplates_ext fs fs' t (pre ++ [path])%list Hfs).
    clear Happ Hfs. revert t Hpre.
    induction pre as [|p pre IH]; intros t Hpre.
    - injection Hpre as ->. simpl app. rewrite parseTemplates_cons. by rewrite Hfail.
    - rewrite <-app_comm_cons, parseTemplates_cons.
      rewrite parseTemplates_cons in Hpre.
      destruct (parse_file fs t p); [by apply IH|done]. }
  clear Hpre Hfail Hfs. generalize (pre ++ [path])%list. intros l. revert t.
  induction l as [|p l IH]; intros t0; [done|].
  rewrite <-app_comm_cons, !parseTemplates_cons.
  destruct (parse_file fs' t0 p); [apply IH|done].
Qed.

End Gateway.

(** ** The claims on concrete requests *)

#[local] Existing Instances Demo.table_order Demo.request_codec
  Demo.matches_codec Demo.lists_codec Demo.status_codec Demo.library.

(** C1, the claim as stated fails: the batch asks for "bad.org" at two
    positions, the classifier returns the malware triple for each, and
    the response holds the same match twice. *)
Lemma C1_same_url_at_two_positions :
  ∃ resp m,
    safebrowsing.sb_LookupURLs Demo.classifier ["bad.org"; "bad.org"]
      = ([[Demo.threat Demo.MALWARE; Demo.threat Demo.MALWARE];
          [Demo.threat Demo.MALWARE; Demo.threat Demo.MALWARE]], None) ∧
    compose ["bad.org"; "bad.org"]
      [[Demo.threat Demo.MALWARE; Demo.threat Demo.MALWARE];
       [Demo.threat Demo.MALWARE; Demo.threat Demo.MALWARE]] = Ok resp ∧
    m = new_ThreatMatch "bad.org" (Demo.descriptor Demo.MALWARE) ∧
    pb.Matches resp = [m; m].
Proof.
  eexists _, _. split; [reflexivity|]. split; [vm_compute; reflexivity|].
  split; reflexivity.
Qed.

Lemma C1_witness :
  compose ["good.org"; "bad.org"]
    [[]; [Demo.threat Demo.MALWARE; Demo.threat Demo.UNWANTED_SOFTWARE;
          Demo.threat Demo.MALWARE]]
  = Ok {| pb.Matches :=
            [new_ThreatMatch "bad.org" (Demo.descriptor Demo.UNWANTED_SOFTWARE);
             new_ThreatMatch "bad.org" (Demo.descriptor Demo.MALWARE)] |}
  ∧ ∃ groups,
      [new_ThreatMatch "bad.org" (Demo.descriptor Demo.UNWANTED_SOFTWARE);
       new_ThreatMatch "bad.org" (Demo.descriptor Demo.MALWARE)] = concat groups ∧
      length groups = 2%nat ∧
      ∀ i g uts, groups !! i = Some g →
        [[]; [Demo.threat Demo.MALWARE; Demo.threat Demo.UNWANTED_SOFTWARE;
              Demo.threat Demo.MALWARE]] !! i = Some uts →
        (∀ m, m ∈ g → threat_url m = ["good.org"; "bad.org"] !! i) ∧
        NoDup (pb.triple <$> g) ∧
        ∀ ut, ut ∈ uts →
          length (filter (λ m, pb.triple m
                               = descriptor_triple (safebrowsing.Descriptor ut)) g)
          = 1%nat.
Proof.
  split; [vm_compute; reflexivity|].
  apply (C1_dedup_per_position ["good.org"; "bad.org"]
           [[]; [Demo.threat Demo.MALWARE; Demo.threat Demo.UNWANTED_SOFTWARE;
                 Demo.threat Demo.MALWARE]]
           {| pb.Matches :=
                [new_ThreatMatch "bad.org" (Demo.descriptor Demo.UNWANTED_SOFTWARE);
                 new_ThreatMatch "bad.org" (Demo.descriptor Demo.MALWARE)] |}).
  vm_compute; reflexivity.
Defined.


(** C3, the claim as stated fails: a POST with no [alt] parameter and no
    Content-Type header has the empty string as the value to switch on,
    and it is answered 400 "invalid interchange format", not in JSON. *)
Lemma C3_empty_selector_is_refused :
  selector (Demo.request "POST" None None ["bad.org"]) = "" ∧
  serveLookups http.NewRecorder (Demo.request "POST" None None ["bad.org"])
  = safebrowsing.Ret
      (Returned (http.Error http.NewRecorder "invalid interchange format"
                   http.StatusBadRequest)) ∧
  http.StatusCode
    (http.Error http.NewRecorder "invalid interchange format" http.StatusBadRequest)
  = 400.
Proof. split; [|split]; vm_compute; reflexivity. Qed.

Lemma C3_witness :
  fresh http.NewRecorder ∧
  http.Method (Demo.request "POST" (Some "proto") (Some mimeJSON) ["bad.org"])
    = "POST" ∧
  selector (Demo.request "POST" (Some "proto") (Some mimeJSON) ["bad.org"])
    = "proto" ∧
  unmarshal (Demo.request "POST" (Some "proto") (Some mimeJSON) ["bad.org"])
    pb.new_FindThreatMatchesRequest
    = (mimeProto, Demo.lookup_of [Demo.url_entry "bad.org"], None) ∧
  parse_entries
    (pb.GetThreatEntries
       (pb.GetThreatInfo (Demo.lookup_of [Demo.url_entry "bad.org"]))) []
    = Some ["bad.org"] ∧
  safebrowsing.sb_LookupURLs Demo.classifier ["bad.org"]
    = ([[Demo.threat Demo.MALWARE; Demo.threat Demo.MALWARE]], None) ∧
  compose ["bad.org"] [[Demo.threat Demo.MALWARE; Demo.threat Demo.MALWARE]]
    = Ok {| pb.Matches :=
              [new_ThreatMatch "bad.org" (Demo.descriptor Demo.MALWARE)] |} ∧
  ∃ w,
    marshal http.NewRecorder
      {| pb.Matches := [new_ThreatMatch "bad.org" (Demo.descriptor Demo.MALWARE)] |}
      mimeProto = (w, None) ∧
    safebrowsing.run Demo.classifier
      (serveLookups http.NewRecorder
         (Demo.request "POST" (Some "proto") (Some mimeJSON) ["bad.org"]))
    = (Returned w, [safebrowsing.CallLookupURLs ["bad.org"]]) ∧
    http.ContentType w = mimeProto ∧
    http.StatusCode w = 200.
Proof.
  destruct (C3_lookup_outbound_encoding http.NewRecorder
              (Demo.request "POST" (Some "proto") (Some mimeJSON) ["bad.org"])
              eq_refl eq_refl) as (_ & _ & _ & Hrun).
  split; [reflexivity|]. split; [reflexivity|]. split; [reflexivity|].
  split; [vm_compute; reflexivity|]. split; [reflexivity|].
  split; [reflexivity|]. split; [vm_compute; reflexivity|].
  eexists. split; [reflexivity|].
  apply (Hrun Demo.classifier mimeProto
           (Demo.lookup_of [Demo.url_entry "bad.org"]) ["bad.org"]
           [[Demo.threat Demo.MALWARE; Demo.threat Demo.MALWARE]]
           {| pb.Matches :=
                [new_ThreatMatch "bad.org" (Demo.descriptor Demo.MALWARE)] |});
    first [reflexivity | vm_compute; reflexivity].
Defined.

(** C4, the claim as stated fails: the list endpoint refuses the full
    content type as an [alt] value, with the message "invalid request
    type"; and with no [alt] it answers in JSON whatever the Content-Type
    header of the request says. *)
Lemma C4_full_content_type_is_refused :
  serveLists http.NewRecorder (Demo.request "GET" (Some mimeJSON) None [])
    {| safebrowsing.ThreatLists := [] |}
  = http.Error http.NewRecorder "invalid request type" http.StatusBadRequest ∧
  http.ContentType
    (serveLists http.NewRecorder (Demo.request "GET" None (Some mimeProto) [])
       {| safebrowsing.ThreatLists := [] |})
  = mimeJSON.
Proof. split; vm_compute; reflexivity. Qed.

Lemma C4_witness :
  fresh http.NewRecorder ∧
  http.Method (Demo.request "GET" (Some "proto") (Some mimeJSON) []) = "GET" ∧
  http.Get (http.Query (Demo.request "GET" (Some "proto") (Some mimeJSON) [])) "alt"
    = "proto" ∧
  serveLists http.NewRecorder (Demo.request "GET" (Some "proto") (Some mimeJSON) [])
    {| safebrowsing.ThreatLists := [] |}
  = encoded
      (marshal http.NewRecorder
         {| pb.ThreatLists :=
              new_ThreatListDescriptor
                <$> subscribed {| safebrowsing.ThreatLists := [] |} |}
         mimeProto) ∧
  (http.Get (http.Query (Demo.request "GET" (Some "yaml") None [])) "alt"
     ∉ [""; "json"; "proto"]) ∧
  serveLists http.NewRecorder (Demo.request "GET" (Some "yaml") None [])
    {| safebrowsing.ThreatLists := [] |}
  = http.Error http.NewRecorder "invalid request type" http.StatusBadRequest ∧
  http.StatusCode
    (serveLists http.NewRecorder (Demo.request "GET" (Some "yaml") None [])
       {| safebrowsing.ThreatLists := [] |}) = 400.
Proof.
  destruct (C4_list_outbound_encoding http.NewRecorder
              (Demo.request "GET" (Some "proto") (Some mimeJSON) [])
              {| safebrowsing.ThreatLists := [] |} eq_refl) as (_ & Hproto & _).
  destruct (C4_list_outbound_encoding http.NewRecorder
              (Demo.request "GET" (Some "yaml") None [])
              {| safebrowsing.ThreatLists := [] |} eq_refl) as (_ & _ & Hbad & _).
  assert (http.Get (http.Query (Demo.request "GET" (Some "yaml") None [])) "alt"
            ∉ [""; "json"; "proto"]) as Halt.
  { change (http.Get _ "alt") with "yaml". rewrite !not_elem_of_cons.
    repeat split; [done..|]. apply not_elem_of_nil. }
  split; [reflexivity|]. split; [reflexivity|]. split; [reflexivity|].
  split; [by apply Hproto|]. split; [exact Halt|]. by apply Hbad.
Defined.

Lemma C5_witness :
  fresh http.NewRecorder ∧
  safebrowsing.sb_Status Demo.classifier
  = ({| safebrowsing.QueriesByDatabase := 132; safebrowsing.QueriesByCache := 31;
        safebrowsing.QueriesByAPI := 6; safebrowsing.QueriesFail := 0 |},
     Some "update failed") ∧
  json_Marshal
    {| Stats :=
         {| safebrowsing.QueriesByDatabase := 132; safebrowsing.QueriesByCache := 31;
            safebrowsing.QueriesByAPI := 6; safebrowsing.QueriesFail := 0 |};
       Error := "update failed" |}
  = Ok (list_byte_of_string "update failed") ∧
  ∃ w,
    safebrowsing.run Demo.classifier
      (serveStatus http.NewRecorder (Demo.request "GET" None None []))
    = (Returned w, [safebrowsing.CallStatus]) ∧
    http.StatusCode w = 200 ∧
    http.ContentType w = mimeJSON ∧
    http.rw_Body w = list_byte_of_string "update failed".
Proof.
  destruct (C5_status_always_200 http.NewRecorder (Demo.request "GET" None None [])
              Demo.classifier _ _ eq_refl eq_refl) as (w & Hrun & Hok & _).
  split; [reflexivity|]. split; [reflexivity|]. split; [reflexivity|].
  exists w. split; [exact Hrun|]. by apply Hok.
Defined.

(** C6, the claim as stated fails: the list endpoint looks at [alt]
    before the method, so a POST with an [alt] it does not accept is
    answered "invalid request type", not "invalid method". *)
Lemma C6_list_checks_alt_first :
  http.Method (Demo.request "POST" (Some "xml") None []) ≠ "GET" ∧
  serveLists http.NewRecorder (Demo.request "POST" (Some "xml") None [])
    {| safebrowsing.ThreatLists := [] |}
  = http.Error http.NewRecorder "invalid request type" http.StatusBadRequest ∧
  serveLists http.NewRecorder (Demo.request "POST" (Some "xml") None [])
    {| safebrowsing.ThreatLists := [] |}
  ≠ http.Error http.NewRecorder "invalid method" http.StatusBadRequest.
Proof.
  split; [done|]. split; [vm_compute; reflexivity|].
  intros Heq. apply (f_equal http.rw_Body) in Heq. vm_compute in Heq. done.
Qed.

Lemma C6_witness :
  fresh http.NewRecorder ∧
  http.Method (Demo.request "PUT" (Some "json") None []) ≠ "POST" ∧
  http.Method (Demo.request "PUT" (Some "json") None []) ≠ "GET" ∧
  http.Get (http.Query (Demo.request "PUT" (Some "json") None [])) "alt"
    ∈ [""; "json"; "proto"] ∧
  serveLookups http.NewRecorder (Demo.request "PUT" (Some "json") None [])
  = safebrowsing.Ret
      (Returned (http.Error http.NewRecorder "invalid method" http.StatusBadRequest)) ∧
  serveLists http.NewRecorder (Demo.request "PUT" (Some "json") None [])
    {| safebrowsing.ThreatLists := [] |}
  = http.Error http.NewRecorder "invalid method" http.StatusBadRequest ∧
  http.StatusCode
    (http.Error http.NewRecorder "invalid method" http.StatusBadRequest) = 400.
Proof.
  destruct (C6_invalid_method http.NewRecorder
              (Demo.request "PUT" (Some "json") None [])
              {| safebrowsing.ThreatLists := [] |} eq_refl)
    as (Hlookup & Hlist & _ & Hcode).
  assert (http.Get (http.Query (Demo.request "PUT" (Some "json") None [])) "alt"
            ∈ [""; "json"; "proto"]) as Halt by (right; left).
  split; [reflexivity|]. split; [done|]. split; [done|]. split; [exact Halt|].
  split; [by apply Hlookup|]. split; [by apply Hlist|]. exact Hcode.
Defined.

(** C7, the claim as stated fails: a GET with an [alt] the endpoint does
    not accept is answered with the 400 of the [alt] switch, whatever
    lists are configured; no descriptor is encoded. *)
Lemma C7_unaccepted_alt_lists_nothing :
  http.Method (Demo.request "GET" (Some "xml") None []) = "GET" ∧
  serveLists http.NewRecorder (Demo.request "GET" (Some "xml") None [])
    {| safebrowsing.ThreatLists := [Demo.descriptor Demo.MALWARE] |}
  = http.Error http.NewRecorder "invalid request type" http.StatusBadRequest ∧
  http.StatusCode
    (serveLists http.NewRecorder (Demo.request "GET" (Some "xml") None [])
       {| safebrowsing.ThreatLists := [Demo.descriptor Demo.MALWARE] |}) = 400 ∧
  http.rw_Body
    (serveLists http.NewRecorder (Demo.request "GET" (Some "xml") None [])
       {| safebrowsing.ThreatLists := [Demo.descriptor Demo.MALWARE] |})
  = list_byte_of_string ("invalid request type" ++ String (Ascii.ascii_of_byte x0a) "").
Proof. repeat split; vm_compute; reflexivity. Qed.

Lemma C7_witness :
  http.Method (Demo.request "GET" (Some "proto") None []) = "GET" ∧
  http.Get (http.Query (Demo.request "GET" (Some "proto") None [])) "alt"
    ∈ [""; "json"; "proto"] ∧
  ∃ mime tls,
    (mime = mimeJSON ∨ mime = mimeProto) ∧
    serveLists http.NewRecorder (Demo.request "GET" (Some "proto") None [])
      {| safebrowsing.ThreatLists := [] |}
    = encoded (marshal http.NewRecorder
                 {| pb.ThreatLists := new_ThreatListDescriptor <$> tls |} mime) ∧
    (safebrowsing.ThreatLists {| safebrowsing.ThreatLists := [] |} ≠ [] →
       tls = safebrowsing.ThreatLists {| safebrowsing.ThreatLists := [] |}) ∧
    (safebrowsing.ThreatLists {| safebrowsing.ThreatLists := [] |} = [] →
       tls = safebrowsing.DefaultThreatLists) ∧
    ∃ h,
      handler_at (handlers {| safebrowsing.ThreatLists := [] |}) getThreatListsPath
        = Some h ∧
      ∀ sb, safebrowsing.run sb
              (h http.NewRecorder (Demo.request "GET" (Some "proto") None []))
            = (Returned
                 (serveLists http.NewRecorder
                    (Demo.request "GET" (Some "proto") None [])
                    {| safebrowsing.ThreatLists := [] |}), []).
Proof.
  assert (http.Get (http.Query (Demo.request "GET" (Some "proto") None [])) "alt"
            ∈ [""; "json"; "proto"]) as Halt by (right; right; left).
  split; [reflexivity|]. split; [exact Halt|].
  apply (C7_lists_echo_configuration http.NewRecorder
           (Demo.request "GET" (Some "proto") None [])
           {| safebrowsing.ThreatLists := [] |}); [reflexivity | exact Halt].
Defined.

Lemma C8_witness :
  compose ["good.org"; "bad.org"]
    [[]; [Demo.threat Demo.MALWARE; Demo.threat Demo.UNWANTED_SOFTWARE]]
  = Ok {| pb.Matches :=
            [new_ThreatMatch "bad.org" (Demo.descriptor Demo.UNWANTED_SOFTWARE);
             new_ThreatMatch "bad.org" (Demo.descriptor Demo.MALWARE)] |}
  ∧ ∃ groups,
      [new_ThreatMatch "bad.org" (Demo.descriptor Demo.UNWANTED_SOFTWARE);
       new_ThreatMatch "bad.org" (Demo.descriptor Demo.MALWARE)] = concat groups ∧
      length groups = 2%nat ∧
      ∀ i g uts, groups !! i = Some g →
        [[]; [Demo.threat Demo.MALWARE; Demo.threat Demo.UNWANTED_SOFTWARE]] !! i
          = Some uts →
        (∀ m, m ∈ g →
           ∃ url, ["good.org"; "bad.org"] !! i = Some url ∧
                  pb.tm_Threat m = Some {| pb.Hash := []; pb.Url := url |}) ∧
        (∀ t, t ∈ pb.triple <$> g ↔
              ∃ ut, ut ∈ uts ∧ descriptor_triple (safebrowsing.Descriptor ut) = t).
Proof.
  split; [vm_compute; reflexivity|].
  apply (C8_threat_echoes_query_in_order ["good.org"; "bad.org"]
           [[]; [Demo.threat Demo.MALWARE; Demo.threat Demo.UNWANTED_SOFTWARE]]
           {| pb.Matches :=
                [new_ThreatMatch "bad.org" (Demo.descriptor Demo.UNWANTED_SOFTWARE);
                 new_ThreatMatch "bad.org" (Demo.descriptor Demo.MALWARE)] |}).
  vm_compute; reflexivity.
Defined.


(** The failure C10 speaks of, on a reply that is one position too long. *)
Example lookup_panics_past_last_url :
  safebrowsing.run
    {| safebrowsing.sb_LookupURLs := λ _, ([[]; [Demo.threat Demo.MALWARE]], None);
       safebrowsing.sb_Status := safebrowsing.sb_Status Demo.classifier |}
    (serveLookups http.NewRecorder
       (Demo.request "POST" None (Some mimeJSON) ["bad.org"]))
  = (Panicked index_out_of_range, [safebrowsing.CallLookupURLs ["bad.org"]]).
Proof. vm_compute; reflexivity. Qed.

(** ** The further properties on concrete requests *)

#[local] Existing Instance Demo.templates.

Section StrictDecoder.

#[local] Existing Instance Demo.strict_request_codec.

Lemma X1_witness :
  fresh http.NewRecorder ∧
  http.Method (Demo.request "POST" None (Some mimeJSON) ["!bad.org"]) = "POST" ∧
  accepted (selector (Demo.request "POST" None (Some mimeJSON) ["!bad.org"])) ∧
  http.Get (http.Header (Demo.request "POST" None (Some mimeJSON) ["!bad.org"]))
    "Content-Type" = mimeJSON ∧
  pb.jsonpb_Unmarshal (M := pb.FindThreatMatchesRequest)
    (http.Body (Demo.request "POST" None (Some mimeJSON) ["!bad.org"]))
  = Err "unexpected token" ∧
  serveLookups http.NewRecorder
    (Demo.request "POST" None (Some mimeJSON) ["!bad.org"])
  = safebrowsing.Ret
      (Returned (http.Error http.NewRecorder "unexpected token"
                   http.StatusBadRequest)) ∧
  http.StatusCode
    (http.Error http.NewRecorder "unexpected token" http.StatusBadRequest) = 400.
Proof.
  assert (accepted (selector (Demo.request "POST" None (Some mimeJSON) ["!bad.org"])))
    as Hsel by (right; left).
  split; [reflexivity|]. split; [reflexivity|]. split; [exact Hsel|].
  split; [reflexivity|]. split; [reflexivity|].
  apply (X1_decode_failure_is_400 http.NewRecorder
           (Demo.request "POST" None (Some mimeJSON) ["!bad.org"])
           "unexpected token"); [reflexivity | reflexivity | exact Hsel |].
  left. split; reflexivity.
Defined.

End StrictDecoder.

Lemma X2_witness :
  http.Method (Demo.request "POST" (Some "json") (Some "text/plain") ["bad.org"])
    = "POST" ∧
  accepted
    (selector (Demo.request "POST" (Some "json") (Some "text/plain") ["bad.org"])) ∧
  http.Get
    (http.Header (Demo.request "POST" (Some "json") (Some "text/plain") ["bad.org"]))
    "Content-Type" ≠ mimeJSON ∧
  http.Get
    (http.Header (Demo.request "POST" (Some "json") (Some "text/plain") ["bad.org"]))
    "Content-Type" ≠ mimeProto ∧
  (∃ out,
     safebrowsing.run Demo.classifier
       (serveLookups http.NewRecorder
          (Demo.request "POST" (Some "json") (Some "text/plain") ["bad.org"]))
     = (out, [safebrowsing.CallLookupURLs []])) ∧
  ∀ body,
    safebrowsing.run Demo.classifier
      (serveLookups http.NewRecorder
         {| http.Method :=
              http.Method
                (Demo.request "POST" (Some "json") (Some "text/plain") ["bad.org"]);
            http.Query :=
              http.Query
                (Demo.request "POST" (Some "json") (Some "text/plain") ["bad.org"]);
            http.Header :=
              http.Header
                (Demo.request "POST" (Some "json") (Some "text/plain") ["bad.org"]);
            http.Body := body |})
    = safebrowsing.run Demo.classifier
        (serveLookups http.NewRecorder
           (Demo.request "POST" (Some "json") (Some "text/plain") ["bad.org"])).
Proof.
  assert (accepted
            (selector
               (Demo.request "POST" (Some "json") (Some "text/plain") ["bad.org"])))
    as Hsel by left.
  split; [reflexivity|]. split; [exact Hsel|]. split; [done|]. split; [done|].
  apply (X2_undecoded_body_looks_up_nothing http.NewRecorder
           (Demo.request "POST" (Some "json") (Some "text/plain") ["bad.org"])
           Demo.classifier); [reflexivity | exact Hsel | done | done].
Defined.

Lemma X3_witness :
  http.Method (Demo.request "POST" None (Some mimeJSON) ["good.org"; "bad.org"])
    = "POST" ∧
  unmarshal (Demo.request "POST" None (Some mimeJSON) ["good.org"; "bad.org"])
    pb.new_FindThreatMatchesRequest
  = (mimeJSON,
     Demo.lookup_of [Demo.url_entry "good.org"; Demo.url_entry "bad.org"], None) ∧
  Forall (λ u, ¬ invalid_entry u)
    (pb.GetThreatEntries
       (pb.GetThreatInfo
          (Demo.lookup_of [Demo.url_entry "good.org"; Demo.url_entry "bad.org"]))) ∧
  ∃ out,
    safebrowsing.run Demo.classifier
      (serveLookups http.NewRecorder
         (Demo.request "POST" None (Some mimeJSON) ["good.org"; "bad.org"]))
    = (out,
       [safebrowsing.CallLookupURLs
          (pb.Url <$>
             pb.GetThreatEntries
               (pb.GetThreatInfo
                  (Demo.lookup_of
                     [Demo.url_entry "good.org"; Demo.url_entry "bad.org"])))]).
Proof.
  assert (Forall (λ u, ¬ invalid_entry u)
            [Demo.url_entry "good.org"; Demo.url_entry "bad.org"]) as Hall
    by (repeat constructor; intros [?|?]; done).
  split; [reflexivity|]. split; [vm_compute; reflexivity|]. split; [exact Hall|].
  apply (X3_one_batch_call_in_entry_order http.NewRecorder
           (Demo.request "POST" None (Some mimeJSON) ["good.org"; "bad.org"])
           mimeJSON
           (Demo.lookup_of [Demo.url_entry "good.org"; Demo.url_entry "bad.org"])
           Demo.classifier); [reflexivity | vm_compute; reflexivity | exact Hall].
Defined.

Lemma X4_witness :
  fresh http.NewRecorder ∧
  http.Method (Demo.request "POST" None (Some mimeJSON) ["bad.org"]) = "POST" ∧
  unmarshal (Demo.request "POST" None (Some mimeJSON) ["bad.org"])
    pb.new_FindThreatMatchesRequest
  = (mimeJSON, Demo.lookup_of [Demo.url_entry "bad.org"], None) ∧
  parse_entries
    (pb.GetThreatEntries
       (pb.GetThreatInfo (Demo.lookup_of [Demo.url_entry "bad.org"]))) []
  = Some ["bad.org"] ∧
  safebrowsing.sb_LookupURLs Demo.failing_classifier ["bad.org"]
  = ([], Some "database not ready") ∧
  safebrowsing.run Demo.failing_classifier
    (serveLookups http.NewRecorder
       (Demo.request "POST" None (Some mimeJSON) ["bad.org"]))
  = (Returned (http.Error http.NewRecorder "database not ready"
                 http.StatusInternalServerError),
     [safebrowsing.CallLookupURLs ["bad.org"]]) ∧
  http.StatusCode
    (http.Error http.NewRecorder "database not ready"
       http.StatusInternalServerError) = 500.
Proof.
  split; [reflexivity|]. split; [reflexivity|].
  split; [vm_compute; reflexivity|]. split; [reflexivity|]. split; [reflexivity|].
  apply (X4_classifier_failure_is_500 http.NewRecorder
           (Demo.request "POST" None (Some mimeJSON) ["bad.org"])
           mimeJSON (Demo.lookup_of [Demo.url_entry "bad.org"]) ["bad.org"]
           Demo.failing_classifier [] "database not ready");
    first [reflexivity | vm_compute; reflexivity].
Defined.

Section FailingEncoder.

#[local] Existing Instance Demo.failing_matches_codec.

Lemma X6_witness :
  fresh http.NewRecorder ∧
  http.Method (Demo.request "POST" None (Some mimeJSON) ["bad.org"]) = "POST" ∧
  unmarshal (Demo.request "POST" None (Some mimeJSON) ["bad.org"])
    pb.new_FindThreatMatchesRequest
  = (mimeJSON, Demo.lookup_of [Demo.url_entry "bad.org"], None) ∧
  parse_entries
    (pb.GetThreatEntries
       (pb.GetThreatInfo (Demo.lookup_of [Demo.url_entry "bad.org"]))) []
  = Some ["bad.org"] ∧
  safebrowsing.sb_LookupURLs Demo.classifier ["bad.org"]
  = ([[Demo.threat Demo.MALWARE; Demo.threat Demo.MALWARE]], None) ∧
  compose ["bad.org"] [[Demo.threat Demo.MALWARE; Demo.threat Demo.MALWARE]]
  = Ok {| pb.Matches :=
            [new_ThreatMatch "bad.org" (Demo.descriptor Demo.MALWARE)] |} ∧
  marshal http.NewRecorder
    {| pb.Matches := [new_ThreatMatch "bad.org" (Demo.descriptor Demo.MALWARE)] |}
    mimeJSON
  = (http.Header_Set http.NewRecorder "Content-Type" mimeJSON,
     Some "message too large") ∧
  safebrowsing.run Demo.classifier
    (serveLookups http.NewRecorder
       (Demo.request "POST" None (Some mimeJSON) ["bad.org"]))
  = (Returned
       (http.Error (http.Header_Set http.NewRecorder "Content-Type" mimeJSON)
          "message too large" http.StatusInternalServerError),
     [safebrowsing.CallLookupURLs ["bad.org"]]) ∧
  http.StatusCode
    (http.Error (http.Header_Set http.NewRecorder "Content-Type" mimeJSON)
       "message too large" http.StatusInternalServerError) = 500 ∧
  http.ContentType
    (http.Error (http.Header_Set http.NewRecorder "Content-Type" mimeJSON)
       "message too large" http.StatusInternalServerError)
  = "text/plain; charset=utf-8" ∧
  (mimeJSON = mimeProto ∧
   pb.proto_Marshal
     {| pb.Matches := [new_ThreatMatch "bad.org" (Demo.descriptor Demo.MALWARE)] |}
   = Err "message too large" ∨
   mimeJSON = mimeJSON ∧
   pb.jsonpb_Marshal
     {| pb.Matches := [new_ThreatMatch "bad.org" (Demo.descriptor Demo.MALWARE)] |}
   = Err "message too large").
Proof.
  split; [reflexivity|]. split; [reflexivity|].
  split; [vm_compute; reflexivity|]. split; [reflexivity|]. split; [reflexivity|].
  split; [vm_compute; reflexivity|]. split; [reflexivity|].
  apply (X6_encode_failure_is_500 http.NewRecorder
           (Demo.request "POST" None (Some mimeJSON) ["bad.org"])
           mimeJSON (Demo.lookup_of [Demo.url_entry "bad.org"]) ["bad.org"]
           Demo.classifier [[Demo.threat Demo.MALWARE; Demo.threat Demo.MALWARE]]
           {| pb.Matches :=
                [new_ThreatMatch "bad.org" (Demo.descriptor Demo.MALWARE)] |}
           (http.Header_Set http.NewRecorder "Content-Type" mimeJSON)
           "message too large");
    first [reflexivity | vm_compute; reflexivity].
Defined.

End FailingEncoder.



Lemma X9_witness :
  compose ["good.org"; "bad.org"] [[]; [Demo.threat Demo.MALWARE]]
  = Ok {| pb.Matches :=
            [new_ThreatMatch "bad.org" (Demo.descriptor Demo.MALWARE)] |} ∧
  (new_ThreatMatch "bad.org" (Demo.descriptor Demo.MALWARE)
     ∈ [new_ThreatMatch "bad.org" (Demo.descriptor Demo.MALWARE)] ↔
   ∃ i url uts ut,
     ["good.org"; "bad.org"] !! i = Some url ∧
     [[]; [Demo.threat Demo.MALWARE]] !! i = Some uts ∧ ut ∈ uts ∧
     new_ThreatMatch "bad.org" (Demo.descriptor Demo.MALWARE)
     = new_ThreatMatch url (safebrowsing.Descriptor ut)).
Proof.
  split; [vm_compute; reflexivity|].
  apply (X9_matches_are_the_classifier_results ["good.org"; "bad.org"]
           [[]; [Demo.threat Demo.MALWARE]]
           {| pb.Matches :=
                [new_ThreatMatch "bad.org" (Demo.descriptor Demo.MALWARE)] |}).
  vm_compute; reflexivity.
Defined.

Section FilteredDecoder.

#[local] Existing Instance Demo.filtered_request_codec.


End FilteredDecoder.

Lemma X12_witness :
  fresh http.NewRecorder ∧
  http.Get (http.Query (Demo.request "GET" (Some "proto") None [])) "alt"
    ∈ [""; "json"; "proto"] ∧
  http.Method (Demo.request "GET" (Some "proto") None []) = "GET" ∧
  http.StatusCode
    (serveLists http.NewRecorder (Demo.request "GET" (Some "proto") None [])
       main_conf) = 200 ∧
  http.ContentType
    (serveLists http.NewRecorder (Demo.request "GET" (Some "proto") None [])
       main_conf) = mimeProto ∧
  http.Method (Demo.request "PUT" (Some "proto") None []) ≠ "GET" ∧
  http.StatusCode
    (serveLists http.NewRecorder (Demo.request "PUT" (Some "proto") None [])
       main_conf) = 400.
Proof.
  assert (http.Get (http.Query (Demo.request "GET" (Some "proto") None [])) "alt"
            ∈ [""; "json"; "proto"]) as Halt by (right; right; left).
  destruct (X12_list_endpoint_replies http.NewRecorder
              (Demo.request "GET" (Some "proto") None []) main_conf eq_refl)
    as [_ Hserved].
  specialize (Hserved Halt eq_refl). vm_compute in Hserved.
  destruct Hserved as (_ & Hcode & Hct).
  destruct (X12_list_endpoint_replies http.NewRecorder
              (Demo.request "PUT" (Some "proto") None []) main_conf eq_refl)
    as [Hrefused _].
  split; [reflexivity|]. split; [exact Halt|]. split; [reflexivity|].
  split; [exact Hcode|]. split; [exact Hct|].
  split; [done|]. apply Hrefused. by right.
Defined.

Lemma X13_witness :
  http.Method (Demo.request "GET" None None []) = "GET" ∧
  http.Get (http.Query (Demo.request "GET" None None [])) "alt"
    ∈ [""; "json"; "proto"] ∧
  ∃ h,
    handler_at (handlers main_conf) getThreatListsPath = Some h ∧
    ∀ sb,
      safebrowsing.run sb (h http.NewRecorder (Demo.request "GET" None None []))
      = (Returned
           (encoded
              (marshal http.NewRecorder
                 {| pb.ThreatLists :=
                      new_ThreatListDescriptor <$> safebrowsing.DefaultThreatLists |}
                 (list_mime
                    (http.Get (http.Query (Demo.request "GET" None None [])) "alt")))),
         []).
Proof.
  assert (http.Get (http.Query (Demo.request "GET" None None [])) "alt"
            ∈ [""; "json"; "proto"]) as Halt by left.
  split; [reflexivity|]. split; [exact Halt|].
  apply (X13_main_serves_the_default_lists http.NewRecorder
           (Demo.request "GET" None None [])); [reflexivity | exact Halt].
Defined.

Lemma X15_witness :
  parseTemplates Demo.files (Demo.parsed []) ["index.html"]
  = Ok (Demo.parsed ["<html>"]) ∧
  parse_file Demo.files (Demo.parsed ["<html>"]) "broken.html"
  = Err "unclosed action" ∧
  (∀ q, q ∈ (["index.html"] ++ ["broken.html"])%list → Demo.files q = Demo.files q) ∧
  parseTemplates Demo.files (Demo.parsed [])
    (["index.html"] ++ "broken.html" :: ["locked.html"])%list
  = Err "unclosed action".
Proof.
  split; [reflexivity|]. split; [reflexivity|]. split; [done|].
  apply (X15_parseTemplates_first_error Demo.files Demo.files (Demo.parsed [])
           (Demo.parsed ["<html>"]) ["index.html"] "broken.html" ["locked.html"]
           "unclosed action");
    [reflexivity | reflexivity | done].
Defined.

Lemma X16_witness :
  accepted (selector (Demo.request "POST" (Some "proto") (Some mimeJSON) ["bad.org"])) ∧
  accepted (selector (Demo.request "POST" (Some "json") (Some mimeJSON) ["bad.org"])) ∧
  (unmarshal (Demo.request "POST" (Some "proto") (Some mimeJSON) ["bad.org"])
     pb.new_FindThreatMatchesRequest).1.2
  = (unmarshal (Demo.request "POST" (Some "json") (Some mimeJSON) ["bad.org"])
       pb.new_FindThreatMatchesRequest).1.2 ∧
  (unmarshal (Demo.request "POST" (Some "proto") (Some mimeJSON) ["bad.org"])
     pb.new_FindThreatMatchesRequest).2
  = (unmarshal (Demo.request "POST" (Some "json") (Some mimeJSON) ["bad.org"])
       pb.new_FindThreatMatchesRequest).2 ∧
  (unmarshal (Demo.request "POST" (Some "proto") (Some mimeJSON) ["bad.org"])
     pb.new_FindThreatMatchesRequest).1.1 = mimeProto ∧
  (unmarshal (Demo.request "POST" (Some "json") (Some mimeJSON) ["bad.org"])
     pb.new_FindThreatMatchesRequest).1.1 = mimeJSON.
Proof.
  assert (accepted
            (selector (Demo.request "POST" (Some "proto") (Some mimeJSON) ["bad.org"])))
    as Hsel by (right; right; left).
  assert (accepted
            (selector (Demo.request "POST" (Some "json") (Some mimeJSON) ["bad.org"])))
    as Hsel' by left.
  destruct (X16_inbound_and_outbound_are_independent
              (Demo.request "POST" (Some "proto") (Some mimeJSON) ["bad.org"])
              (Demo.request "POST" (Some "json") (Some mimeJSON) ["bad.org"])
              pb.new_FindThreatMatchesRequest Hsel Hsel') as [Hin _].
  destruct (Hin eq_refl eq_refl) as [Hmsg Herr].
  split; [exact Hsel|]. split; [exact Hsel'|]. split; [exact Hmsg|].
  split; [exact Herr|]. split; vm_compute; reflexivity.
Defined.
